(** * Dependify 2.0 dashboard: OAuth callback, diff card, login, job status

    A shallow embedding of the client code of the repository:

    - [Json]: JSON values and [JSON.stringify], as far as the callback uses
      them;
    - [AuthCallback]: [handleCallback] of
      [frontend/src/app/auth/callback/page.tsx], as a computation in a small
      state-and-exception monad over the page state, [localStorage], the
      pending timers and the requests sent, and the card the page shows;
    - [MultiFileCodeCard]: the diff presentation component (tabs, panels,
      aggregate statistics, pull-request button) and its hooks;
    - [LoginPage]: the handlers and the controls of
      [frontend/src/app/login/page.tsx];
    - [JobStateMachine]: the status reducer, which the specification
      describes and the sources at hand do not contain. *)

From stdpp Require Import gmap strings list fin_maps.
From Stdlib Require Import ZArith Lia DecimalString.

Local Open Scope string_scope.

(** ** JavaScript truthiness of [string | null] *)

(** [URLSearchParams.get] and [a || b] both work on a value that is a string
    or absent; the only falsy strings are the absent one and the empty one. *)
Definition truthy (v : option string) : bool :=
  match v with
  | Some s => negb (String.eqb s "")
  | None => false
  end.

(** [v || d] for a string [d]. *)
Definition or_else (v : option string) (d : string) : string :=
  match v with
  | Some s => if String.eqb s "" then d else s
  | None => d
  end.

(** * JSON values and [JSON.stringify] *)

Module Json.

(** The values [response.json()] can give. A number is an integer of
    magnitude below 1e21, which [JSON.stringify] prints in plain decimal; the
    fields of an object are in the order in which the object enumerates
    them. *)
#[local] Unset Elimination Schemes.
Inductive Json :=
  | JNull
  | JBool (b : bool)
  | JNumber (n : Z)
  | JString (s : string)
  | JArray (items : list Json)
  | JObject (fields : list (string * Json)).
#[local] Set Elimination Schemes.

Definition quotation_mark : Ascii.ascii := Eval cbv in Ascii.ascii_of_nat 34.
Definition reverse_solidus : Ascii.ascii := Eval cbv in Ascii.ascii_of_nat 92.

(** One hexadecimal digit, in lower case. *)
Definition hex_digit (n : nat) : Ascii.ascii :=
  if Nat.ltb n 10 then Ascii.ascii_of_nat (48 + n) else Ascii.ascii_of_nat (87 + n).

(** The escape of one character inside a JSON string: the quotation mark,
    the reverse solidus and the control characters are escaped, every other
    character stands for itself. *)
Definition escape_char (c : Ascii.ascii) : string :=
  let n := Ascii.nat_of_ascii c in
  if Nat.eqb n 34 then String reverse_solidus (String quotation_mark "")
  else if Nat.eqb n 92 then String reverse_solidus (String reverse_solidus "")
  else if Nat.eqb n 8 then String reverse_solidus "b"
  else if Nat.eqb n 12 then String reverse_solidus "f"
  else if Nat.eqb n 10 then String reverse_solidus "n"
  else if Nat.eqb n 13 then String reverse_solidus "r"
  else if Nat.eqb n 9 then String reverse_solidus "t"
  else if Nat.ltb n 32 then
    String reverse_solidus
      (String.append "u00"
         (String (hex_digit (Nat.div n 16)) (String (hex_digit (Nat.modulo n 16)) "")))
  else String c "".

Fixpoint escape (s : string) : string :=
  match s with
  | EmptyString => ""
  | String c rest => String.append (escape_char c) (escape rest)
  end.

(** A string between quotation marks. *)
Definition quote (s : string) : string :=
  String quotation_mark (String.append (escape s) (String quotation_mark "")).

(** [JSON.stringify(value)], without indentation. *)
Fixpoint stringify (v : Json) : string :=
  match v with
  | JNull => "null"
  | JBool true => "true"
  | JBool false => "false"
  | JNumber n => NilZero.string_of_int (Z.to_int n)
  | JString s => quote s
  | JArray items =>
      String.append "["
        (String.append
           ((fix elements (l : list Json) : string :=
               match l with
               | [] => ""
               | x :: rest =>
                   String.append (stringify x)
                     match rest with
                     | [] => ""
                     | _ :: _ => String.append "," (elements rest)
                     end
               end) items)
           "]")
  | JObject fields =>
      String.append "{"
        (String.append
           ((fix members (l : list (string * Json)) : string :=
               match l with
               | [] => ""
               | (k, x) :: rest =>
                   String.append (quote k)
                     (String.append ":"
                        (String.append (stringify x)
                           match rest with
                           | [] => ""
                           | _ :: _ => String.append "," (members rest)
                           end))
               end) fields)
           "}")
  end.

End Json.

(** * The OAuth callback page *)

Module AuthCallback.

(** [useState<"loading" | "success" | "error">]. *)
Inductive Status := Loading | Success | Error.

#[global] Instance AuthStatus_eq_dec : EqDecision Status.
Proof. solve_decision. Defined.

(** [new URLSearchParams(...)]: the pairs of the query string in order;
    [get] returns the first value of the name, or null. *)
Definition URLSearchParams := list (string * string).

Fixpoint get (searchParams : URLSearchParams) (name : string) : option string :=
  match searchParams with
  | [] => None
  | (k, v) :: rest => if String.eqb k name then Some v else get rest name
  end.

(** The request of the token exchange. The body is [JSON.stringify({ code })];
    the model keeps the [code] it carries. *)
Record Request := {
  url : string;
  method : string;
  content_type : string;
  body_code : string;
}.

#[global] Instance Request_eq_dec : EqDecision Request.
Proof. solve_decision. Defined.

Section WithUser.

(** The profile the backend returns and its [JSON.stringify]; and the
    storage of the browser, which refuses a write - [setItem] throws - when
    its quota would be exceeded: [quota_exceeded store key value] tells
    whether setting [key] to [value] in a storage holding [store] is
    refused. *)
Context {User : Type} (JSON_stringify : User → string)
  (quota_exceeded : gmap string string → string → string → bool).

(** [{ access_token, user }], the payload of a successful exchange;
    [access_token] is the text that [setItem] stores for it. *)
Record TokenData := {
  access_token : string;
  user : User;
}.

(** What [await response.json()] gives: a rejection (the body is not JSON),
    [null] (on which [data.access_token] throws), or the payload. *)
Inductive Body :=
  | BodyInvalid
  | BodyNull
  | BodyData (data : TokenData).

(** What [await fetch(...)] gives: a rejection, or a response with its [ok]
    flag and body. *)
Inductive FetchOutcome :=
  | NetworkError
  | Response (ok : bool) (body : Body).

(** The backend as the page sees it. *)
Definition Backend := Request → FetchOutcome.

(** The values [throw]n inside the [try] block. *)
Inductive Exn :=
  | FetchRejected
  | FailedToAuthenticate  (* new Error("Failed to authenticate") *)
  | JsonRejected
  | NullDereference
  | QuotaExceeded.

(** The effects of the page on its surroundings, in the order they happen. *)
Inductive Effect :=
  | EFetch (req : Request)
  | ESetItem (key value : string)
  | ESetStatus (s : Status)
  | ESetErrorMessage (m : string)
  | ESetTimeout (route : string) (delay_ms : Z)  (* setTimeout(() => router.push(route), delay) *)
  | EConsoleError (label : string) (e : Exn).

(** The page state, the ambient [localStorage] and the trace of effects. *)
Record World := {
  status : Status;
  errorMessage : string;
  localStorage : gmap string string;
  trace : list Effect;
}.

(** The state of a freshly mounted page over a given storage. *)
Definition mount (storage : gmap string string) : World :=
  {| status := Loading; errorMessage := ""; localStorage := storage; trace := [] |}.

(** *** The monad of [handleCallback]: state and exceptions *)

Inductive Outcome (A : Type) :=
  | Returned (a : A)
  | Thrown (e : Exn).
Arguments Returned {A} a.
Arguments Thrown {A} e.

Definition M (A : Type) : Type := World → Outcome A * World.

Definition ret {A} (a : A) : M A := fun w => (Returned a, w).

Definition bind {A B} (c : M A) (k : A → M B) : M B :=
  fun w =>
    match c w with
    | (Returned a, w') => k a w'
    | (Thrown e, w') => (Thrown e, w')
    end.

Definition throw {A} (e : Exn) : M A := fun w => (Thrown e, w).

(** [try { body } catch (e) { handler e }]. *)
Definition try_catch {A} (body : M A) (handler : Exn → M A) : M A :=
  fun w =>
    match body w with
    | (Returned a, w') => (Returned a, w')
    | (Thrown e, w') => handler e w'
    end.

Notation "x <- c ;; k" := (bind c (fun x => k))
  (at level 100, c at next level, right associativity).
Notation "c ;; k" := (bind c (fun _ => k))
  (at level 100, right associativity).

Definition emit (e : Effect) (w : World) : World :=
  {| status := status w; errorMessage := errorMessage w;
     localStorage := localStorage w; trace := trace w ++ [e] |}.

Definition setStatus (s : Status) : M unit :=
  fun w =>
    (Returned tt,
     emit (ESetStatus s)
       {| status := s; errorMessage := errorMessage w;
          localStorage := localStorage w; trace := trace w |}).

Definition setErrorMessage (m : string) : M unit :=
  fun w =>
    (Returned tt,
     emit (ESetErrorMessage m)
       {| status := status w; errorMessage := m;
          localStorage := localStorage w; trace := trace w |}).

(** [setTimeout(() => router.push(route), delay_ms)]. *)
Definition setTimeout_push (route : string) (delay_ms : Z) : M unit :=
  fun w => (Returned tt, emit (ESetTimeout route delay_ms) w).

(** [localStorage.setItem(key, value)]: the entry is set, or the call
    throws and the storage stays as it was. *)
Definition localStorage_setItem (key value : string) : M unit :=
  fun w =>
    if quota_exceeded (localStorage w) key value then (Thrown QuotaExceeded, w)
    else
      (Returned tt,
       emit (ESetItem key value)
         {| status := status w; errorMessage := errorMessage w;
            localStorage := <[key := value]> (localStorage w); trace := trace w |}).

Definition console_error (label : string) (e : Exn) : M unit :=
  fun w => (Returned tt, emit (EConsoleError label e) w).

(** [await fetch(...)]: the request is sent; the promise resolves to a
    response or rejects. *)
Definition fetch (backend : Backend) (req : Request) : M (bool * Body) :=
  fun w =>
    match backend req with
    | NetworkError => (Thrown FetchRejected, emit (EFetch req) w)
    | Response ok body => (Returned (ok, body), emit (EFetch req) w)
    end.

(** [await response.json()] followed by the first property access on it. *)
Definition response_json (body : Body) : M TokenData :=
  match body with
  | BodyInvalid => throw JsonRejected
  | BodyNull => throw NullDereference
  | BodyData data => ret data
  end.

Definition exchange_request (code : string) : Request :=
  {| url := "http://localhost:5001/auth/github";
     method := "POST";
     content_type := "application/json";
     body_code := code |}.

(** *** [handleCallback] *)

Definition handleCallback (searchParams : URLSearchParams) (backend : Backend) : M unit :=
  let code := get searchParams "code" in
  let error := get searchParams "error" in
  if truthy error then
    setStatus Error ;;
    setErrorMessage "Authentication was cancelled or failed" ;;
    setTimeout_push "/login" 3000
  else if negb (truthy code) then
    setStatus Error ;;
    setErrorMessage "No authorization code received" ;;
    setTimeout_push "/login" 3000
  else
    try_catch
      (response <- fetch backend (exchange_request (or_else code "")) ;;
       (if negb (fst response) then throw FailedToAuthenticate else ret tt) ;;
       data <- response_json (snd response) ;;
       localStorage_setItem "auth_token" (access_token data) ;;
       localStorage_setItem "user" (JSON_stringify (user data)) ;;
       setStatus Success ;;
       setTimeout_push "/" 1500)
      (fun e =>
         console_error "Authentication error:" e ;;
         setStatus Error ;;
         setErrorMessage "Failed to complete authentication" ;;
         setTimeout_push "/login" 3000).

(** The page after the effect has run on a fresh mount. *)
Definition run (storage : gmap string string)
    (searchParams : URLSearchParams) (backend : Backend) : World :=
  snd (handleCallback searchParams backend (mount storage)).

(** *** Observations on a trace *)

(** The redirects scheduled, as (route, delay in milliseconds). *)
Fixpoint scheduled (t : list Effect) : list (string * Z) :=
  match t with
  | [] => []
  | ESetTimeout route d :: t' => (route, d) :: scheduled t'
  | _ :: t' => scheduled t'
  end.

(** The token exchanges attempted. *)
Fixpoint exchanges (t : list Effect) : list Request :=
  match t with
  | [] => []
  | EFetch req :: t' => req :: exchanges t'
  | _ :: t' => exchanges t'
  end.

(** The writes to [localStorage]. *)
Fixpoint writes (t : list Effect) : list (string * string) :=
  match t with
  | [] => []
  | ESetItem k v :: t' => (k, v) :: writes t'
  | _ :: t' => writes t'
  end.

(** *** The paths of [handleCallback] *)

(** The storage refuses the session of a payload: one of the two writes of
    [handleCallback], in their order, exceeds the quota. *)
Definition storage_refuses (storage : gmap string string) (data : TokenData) : bool :=
  quota_exceeded storage "auth_token" (access_token data)
  || quota_exceeded (<["auth_token" := access_token data]> storage)
       "user" (JSON_stringify (user data)).

(** The exchange for [code] fails: the backend does not answer it with an
    [ok] response carrying a payload. *)
Definition exchange_fails (backend : Backend) (code : string) : Prop :=
  ∀ data, backend (exchange_request code) ≠ Response true (BodyData data).

(** The three ways into the error state: the [if (error)] branch, the
    [if (!code)] branch and the [catch] block. *)
Definition failure_path (searchParams : URLSearchParams) (backend : Backend) : Prop :=
  truthy (get searchParams "error") = true
  ∨ truthy (get searchParams "code") = false
  ∨ exchange_fails backend (or_else (get searchParams "code") "").

(** The redirect to the login view: the error state, one timer of 3000 ms
    to [/login], no request sent and the storage as it was. *)
Definition fails_to_login (storage : gmap string string) (w : World) : Prop :=
  status w = Error
  ∧ scheduled (trace w) = [("/login", 3000%Z)]
  ∧ exchanges (trace w) = []
  ∧ localStorage w = storage.

End WithUser.

Arguments TokenData : clear implicits.
Arguments Body : clear implicits.
Arguments FetchOutcome : clear implicits.
Arguments Backend : clear implicits.

(** *** What the page shows *)

(** One block of the card: its heading, its text and the small print under
    it. *)
Record Block := {
  heading : string;
  text : string;
  small_print : option string;
}.

(** [{cond && (<div>...</div>)}]: the element when the condition holds,
    nothing otherwise. *)
Definition when {A : Type} (cond : bool) (element : A) : list A :=
  if cond then [element] else [].

(** The children of the card, in the order of the three conditionals of the
    JSX. *)
Definition render_page (w : World) : list Block :=
  (when (bool_decide (status w = Loading))
     {| heading := "Authenticating...";
        text := "Please wait while we verify your credentials";
        small_print := None |}
   ++ when (bool_decide (status w = Success))
        {| heading := "Success!";
           text := "Redirecting to your dashboard...";
           small_print := None |}
   ++ when (bool_decide (status w = Error))
        {| heading := "Authentication Failed";
           text := errorMessage w;
           small_print := Some "Redirecting to login page..." |})%list.

(** The [console.error] calls of a trace. *)
Fixpoint logged (t : list Effect) : list (string * Exn) :=
  match t with
  | [] => []
  | EConsoleError label e :: t' => (label, e) :: logged t'
  | _ :: t' => logged t'
  end.

End AuthCallback.

(** * The diff presentation component *)

Module MultiFileCodeCard.

(** [interface CodeFile]. The component reads every field through [?.] and
    [|| ""], so a field can be absent at run time whatever the interface
    says. *)
Record CodeFile := {
  name : option string;
  content : option string;
  description : option string;
  confidence_score : option Z;
  key_changes : option (list string);
}.

(** [interface Comparison]. A [null] element of the array behaves as a pair
    with neither side, since every access is [file?.old] or [file?.new]. *)
Record Comparison := {
  old : option CodeFile;
  new : option CodeFile;
}.

(** The value passed as the [files] prop. *)
Inductive FilesProp :=
  | FilesUndefined                                (* the prop is omitted *)
  | FilesNull
  | FilesNotArray (first_old_name : option string)
      (* any other value that is not an array, with what
         [files[0]?.old?.name] evaluates to on it *)
  | FilesArray (items : list Comparison).

Record Props := {
  files : FilesProp;
  link : option string;
}.

(** The default values of the destructured props: [files = []],
    [link = "#"]; a default applies to [undefined] only. *)
Definition files_or_default (p : Props) : FilesProp :=
  match files p with
  | FilesUndefined => FilesArray []
  | f => f
  end.

Definition link_or_default (p : Props) : string :=
  match link p with
  | Some l => l
  | None => "#"
  end.

(** [file?.old?.name], [file?.new?.content] and the like. *)
Definition old_name (file : Comparison) : option string := old file ≫= name.
Definition old_description (file : Comparison) : option string := old file ≫= description.
Definition old_content (file : Comparison) : option string := old file ≫= content.
Definition new_content (file : Comparison) : option string := new file ≫= content.
Definition new_key_changes (file : Comparison) : option (list string) := new file ≫= key_changes.

(** [files[0]?.old?.name]; [None] when the evaluation throws a [TypeError],
    which indexing [null] does. *)
Definition files_0_old_name (f : FilesProp) : option (option string) :=
  match f with
  | FilesUndefined => None
  | FilesNull => None
  | FilesNotArray n => Some n
  | FilesArray [] => Some None
  | FilesArray (file :: _) => Some (old_name file)
  end.

(** What React keeps for the component between renders: the cell of
    [const [activeFile, setActiveFile] = useState(...)], and the number of
    hooks the last render called, against which it checks the next one. *)
Record State := {
  activeFile : string;
  hooks : nat;
}.

(** The setter behind [selectFile]: the tab buttons call it with their own
    name. *)
Definition setActiveFile (fileName : string) (st : State) : State :=
  {| activeFile := fileName; hooks := hooks st |}.

(** [useState(files[0]?.old?.name || "")]: the argument is evaluated on
    every render; the cell keeps its value after the first one. *)
Definition useState_activeFile (f : FilesProp) (stored : option State) : option string :=
  match files_0_old_name f with
  | None => None
  | Some first =>
      Some (match stored with
            | Some st => activeFile st
            | None => or_else first ""
            end)
  end.

(** The check React makes on a render that called [n] hooks: the first
    render passes; a later one passes when the render before it called as
    many, and throws otherwise ("Rendered more hooks than during the previous
    render", "Rendered fewer hooks than expected"). *)
Definition hooks_agree (stored : option State) (n : nat) : bool :=
  match stored with
  | Some st => Nat.eqb (hooks st) n
  | None => true
  end.

(** The line feed. *)
Definition LF : Ascii.ascii := Eval cbv in Ascii.ascii_of_nat 10.

(** [s.split("\n")]. *)
Fixpoint split_newline (s : string) : list string :=
  match s with
  | EmptyString => [""]
  | String c rest =>
      if Ascii.eqb c LF then "" :: split_newline rest
      else match split_newline rest with
           | seg :: segs => String c seg :: segs
           | [] => [String c ""]
           end
  end.

(** The [useMemo] of [totalLines]. *)
Definition totalLines (items : list Comparison) : nat :=
  fold_left
    (fun acc file =>
       let content := or_else (new_content file) "" in
       acc + length (split_newline content))
    items 0.

(** The decimal form of an index, as a template literal prints it. *)
Definition string_of_index (index : nat) : string :=
  NilEmpty.string_of_uint (Nat.to_uint index).

(** One tab button: its key and label, whether it is drawn as active, and
    what its click passes to [setActiveFile]. *)
Record Tab := {
  tab_fileName : string;
  tab_active : bool;
}.

(** One panel of the content area. *)
Record Panel := {
  panel_fileName : string;
  panel_description : string;
  panel_keyChanges : option (list string);   (* the "Key Changes" box, when drawn *)
  beforeCode : string;
  afterCode : string;
}.

Record Footer := {
  filesChanged : nat;
  linesWritten : nat;
  pullRequestLink : string;   (* what "View Pull Request" opens *)
}.

(** The card: its title, and the content and footer when there are any. *)
Record Card := {
  title : string;
  cardContent : option (list Tab * list Panel);
  cardFooter : option Footer;
}.

Fixpoint render_tabs (active : string) (index : nat) (items : list Comparison) : list Tab :=
  match items with
  | [] => []
  | file :: rest =>
      let fileName := or_else (old_name file) ("file-" ++ string_of_index index) in
      {| tab_fileName := fileName; tab_active := String.eqb active fileName |}
      :: render_tabs active (S index) rest
  end.

Definition render_key_changes (keyChanges : option (list string)) : option (list string) :=
  match keyChanges with
  | Some (c :: cs) => Some (map (fun change => or_else (Some change) "") (c :: cs))
  | _ => None
  end.

Definition render_panel (active : string) (file : Comparison) : option Panel :=
  let fileName := or_else (old_name file) "" in
  let description := or_else (old_description file) "" in
  let keyChanges := new_key_changes file in
  let beforeCode := or_else (old_content file) "" in
  let afterCode := or_else (new_content file) "" in
  if String.eqb fileName active then
    Some {| panel_fileName := fileName;
            panel_description := description;
            panel_keyChanges := render_key_changes keyChanges;
            beforeCode := beforeCode;
            afterCode := afterCode |}
  else None.

Definition render_panels (active : string) (items : list Comparison) : list Panel :=
  omap (render_panel active) items.

(** The guard of the early return:
    [!files || !Array.isArray(files) || files.length === 0]. *)
Definition no_files (f : FilesProp) : bool :=
  match f with
  | FilesArray items => Nat.eqb (length items) 0
  | _ => true
  end.

Definition items_of (f : FilesProp) : list Comparison :=
  match f with
  | FilesArray items => items
  | _ => []
  end.

(** One render of the component: [None] when it throws, otherwise the state
    React keeps after it and the card returned. The early return comes after
    one hook, [useState]; the rest of the body calls a second one,
    [useMemo]. *)
Definition MultiFileCodeCard (p : Props) (stored : option State) : option (State * Card) :=
  let files := files_or_default p in
  let link := link_or_default p in
  match useState_activeFile files stored with
  | None => None
  | Some active =>
      if no_files files then
        if hooks_agree stored 1 then
          Some ({| activeFile := active; hooks := 1 |},
                {| title := "No files to display";
                   cardContent := None;
                   cardFooter := None |})
        else None
      else
        if hooks_agree stored 2 then
          let items := items_of files in
          Some ({| activeFile := active; hooks := 2 |},
                {| title := "Code Changes";
                   cardContent :=
                     Some (render_tabs active 0 items,
                           render_panels active items);
                   cardFooter :=
                     Some {| filesChanged := length items;
                             linesWritten := totalLines items;
                             pullRequestLink := link |} |})
        else None
  end.

(** The number of hooks a render of [files] calls. *)
Definition hooks_of (f : FilesProp) : nat :=
  if no_files f then 1 else 2.

(** The names under which the panels answer, [file?.old?.name || ""]: the
    current file set as the content area sees it. *)
Definition file_names (items : list Comparison) : list string :=
  map (fun file => or_else (old_name file) "") items.

(** Clicking the [i]-th tab of the card last rendered. *)
Definition click_tab (i : nat) (rendered : State * Card) : State :=
  match cardContent (snd rendered) with
  | Some (tabs, _) =>
      match tabs !! i with
      | Some tab => setActiveFile (tab_fileName tab) (fst rendered)
      | None => fst rendered
      end
  | None => fst rendered
  end.

(** The number of newline-separated lines of a text, in the words of the
    specification: one more than the number of line feeds in it. *)
Fixpoint newline_separated_lines (s : string) : nat :=
  match s with
  | EmptyString => 1
  | String c rest =>
      if Ascii.eqb c LF then S (newline_separated_lines rest)
      else newline_separated_lines rest
  end.

(** [segments.join("\n")], the inverse of [split]. *)
Fixpoint join_newline (segments : list string) : string :=
  match segments with
  | [] => ""
  | seg :: rest =>
      match rest with
      | [] => seg
      | _ :: _ => String.append seg (String LF (join_newline rest))
      end
  end.

(** Whether a text contains a line feed. *)
Fixpoint has_LF (s : string) : bool :=
  match s with
  | EmptyString => false
  | String c rest => Ascii.eqb c LF || has_LF rest
  end.

(** The name a tab button carries: [file?.old?.name || `file-${index}`]. *)
Definition tab_name (index : nat) (file : Comparison) : string :=
  or_else (old_name file) ("file-" ++ string_of_index index).

(** The name a panel answers to: [file?.old?.name || ""]. *)
Definition panel_name (file : Comparison) : string :=
  or_else (old_name file) "".

(** The panel of a file, as the content area draws it when the file is the
    active one. *)
Definition panel_of (file : Comparison) : Panel :=
  {| panel_fileName := panel_name file;
     panel_description := or_else (old_description file) "";
     panel_keyChanges := render_key_changes (new_key_changes file);
     beforeCode := or_else (old_content file) "";
     afterCode := or_else (new_content file) "" |}.

(** The tabs and the panels of a rendered card; none on the placeholder. *)
Definition tabs_of (card : Card) : list Tab :=
  match cardContent card with
  | Some (tabs, _) => tabs
  | None => []
  end.

Definition panels_of (card : Card) : list Panel :=
  match cardContent card with
  | Some (_, panels) => panels
  | None => []
  end.

End MultiFileCodeCard.

(** * The job status reducer *)

Module JobStateMachine.

(** Modelled from the spec: the statuses of section 4.4. The reducer that
    folds ProgressEvents into the Job is not among the sources; this module
    follows sections 3, 4.3 and 4.4 and the glossary of the specification. *)
Inductive Status :=
  | queued | analyzing | refactoring | validating | committing | opened
  | failed.

#[global] Instance JobStatus_eq_dec : EqDecision Status.
Proof. solve_decision. Defined.

(** Modelled from the spec: the canonical sequence of section 4.4, the
    forward-only ordering table the missing reducer keeps. *)
Definition canonical_sequence : list Status :=
  [queued; analyzing; refactoring; validating; committing; opened].

(** Modelled from the spec: the place of a status in a sequence of the
    missing ordering table. *)
Fixpoint index_of (s : Status) (l : list Status) : option nat :=
  match l with
  | [] => None
  | x :: rest => if decide (x = s) then Some 0 else S <$> index_of s rest
  end.

(** Modelled from the spec: the place of a status in the canonical sequence
    of the missing reducer; [failed] has none. *)
Definition position (s : Status) : option nat := index_of s canonical_sequence.

(** Modelled from the spec: "earlier in the canonical sequence", the test of
    the missing reducer: both statuses are in the sequence and the first
    comes before the second. *)
Definition earlier (a b : Status) : bool :=
  match position a, position b with
  | Some i, Some j => Nat.ltb i j
  | _, _ => false
  end.

(** Modelled from the spec: the terminal statuses of the missing machine,
    [opened] and [failed] (glossary). *)
Definition terminal (s : Status) : bool :=
  match s with
  | opened | failed => true
  | _ => false
  end.

(** Modelled from the spec: the FileResult of section 3, which the missing
    reducer carries in the Job. *)
Record FileResult := {
  fileName : string;
  beforeContent : string;
  afterContent : string;
  description : string;
  keyChanges : list string;
  confidenceScore : option Z;
}.

(** Modelled from the spec: the Job of section 3, the state of the missing
    reducer. *)
Record Job := {
  jobId : string;
  repositoryReference : string;
  status : Status;
  submittedAt : Z;
  files : list FileResult;
}.

(** Modelled from the spec: the payload of a ProgressEvent given to the
    missing reducer; a status event is one whose payload claims a target
    status. *)
Inductive Payload :=
  | StatusPayload (target : Status)
  | OtherPayload (text : string).

(** Modelled from the spec: the ProgressEvent of section 3, the input of the
    missing reducer. *)
Record ProgressEvent := {
  event_jobId : string;
  eventType : string;
  payload : Payload;
}.

(** Modelled from the spec: the target status an event claims, as the
    missing reducer reads it. *)
Definition target_status (ev : ProgressEvent) : option Status :=
  match payload ev with
  | StatusPayload target => Some target
  | OtherPayload _ => None
  end.

(** Modelled from the spec: the transition of the missing reducer (section
    4.4). No transition is accepted after a terminal status; [failed] is
    reachable from any non-terminal status; an event whose target is earlier
    in the canonical sequence than the current status is ignored; any other
    target is taken. *)
Definition next_status (current target : Status) : Status :=
  if terminal current then current
  else if decide (target = failed) then failed
  else if earlier target current then current
  else target.

(** Modelled from the spec: the missing reducer changes the status of the
    Job and nothing else. *)
Definition set_status (job : Job) (s : Status) : Job :=
  {| jobId := jobId job;
     repositoryReference := repositoryReference job;
     status := s;
     submittedAt := submittedAt job;
     files := files job |}.

(** Modelled from the spec: the missing reducer itself. The feed is keyed by
    job (section 4.3); an event without a target status drives no
    transition. *)
Definition reduce (job : Job) (ev : ProgressEvent) : Job :=
  match target_status ev with
  | Some target => set_status job (next_status (status job) target)
  | None => job
  end.

(** Modelled from the spec: the fold of the missing Progress Subscriber over
    a delivery of events, first delivered first. *)
Definition replay (job : Job) (events : list ProgressEvent) : Job :=
  fold_left reduce events job.

(** Modelled from the spec: what the transitions of the missing reducer
    allow over time. [follows a b]: the machine can be in [b] at some point
    after it was in [a]; a terminal status is followed by itself only, a
    non-terminal one by [failed] and by every status that is not earlier
    than it. *)
Definition follows (a b : Status) : bool :=
  if terminal a then bool_decide (a = b)
  else bool_decide (b = failed) || negb (earlier b a).

End JobStateMachine.

(** * The login page *)

Module LoginPage.

(** What the page takes from its surroundings:
    [process.env.NEXT_PUBLIC_GITHUB_CLIENT_ID], [window.location.origin],
    and the check the browser makes of [<input type="email" required>]
    before it lets the form fire its submit event. *)
Record Env := {
  NEXT_PUBLIC_GITHUB_CLIENT_ID : option string;
  origin : string;
  accepts_email : string → bool;
}.

(** The check of the HTML standard for [type="email"], on ASCII: a
    non-empty local part of letters, digits and [.!#$%&'*+/=?^_`{|}~-], one
    [@], and a domain of labels separated by dots, each of 1 to 63 letters,
    digits and hyphens that neither starts nor ends with a hyphen. *)
Definition is_alnum (c : Ascii.ascii) : bool :=
  let n := Ascii.nat_of_ascii c in
  Nat.leb 48 n && Nat.leb n 57
  || Nat.leb 65 n && Nat.leb n 90
  || Nat.leb 97 n && Nat.leb n 122.

Definition is_atext (c : Ascii.ascii) : bool :=
  is_alnum c
  || existsb (Nat.eqb (Ascii.nat_of_ascii c))
       [46; 33; 35; 36; 37; 38; 39; 42; 43; 47; 61; 63; 94; 95; 96; 123; 124;
        125; 126; 45].

Definition is_label_char (c : Ascii.ascii) : bool :=
  is_alnum c || Nat.eqb (Ascii.nat_of_ascii c) 45.

(** The pieces of a text between the occurrences of a character. *)
Fixpoint split_on (sep : nat) (s : list Ascii.ascii) : list (list Ascii.ascii) :=
  match s with
  | [] => [[]]
  | c :: rest =>
      if Nat.eqb (Ascii.nat_of_ascii c) sep then [] :: split_on sep rest
      else match split_on sep rest with
           | piece :: pieces => (c :: piece) :: pieces
           | [] => [[c]]
           end
  end.

Definition valid_label (l : list Ascii.ascii) : bool :=
  match l, last l with
  | first :: _, Some final =>
      Nat.leb (length l) 63 && is_alnum first && is_alnum final
      && forallb is_label_char l
  | _, _ => false
  end.

Definition html_valid_email (address : string) : bool :=
  match split_on 64 (String.list_ascii_of_string address) with
  | [local; domain] =>
      negb (Nat.eqb (length local) 0) && forallb is_atext local
      && forallb valid_label (split_on 46 domain)
  | _ => false
  end.

(** The three [useState] cells. *)
Record State := {
  isLoading : bool;
  email : string;
  showEmailInput : bool;
}.

(** The page and what it has done to its surroundings: the last assignment
    to [window.location.href], the [router.push] calls in order, and the
    delays of the pending [setTimeout] callbacks of [handleEmailLogin]. *)
Record Page := {
  state : State;
  location_href : option string;
  pushed : list string;
  timers : list Z;
}.

Definition initial : Page :=
  {| state := {| isLoading := false; email := ""; showEmailInput := false |};
     location_href := None;
     pushed := [];
     timers := [] |}.

Definition setIsLoading (b : bool) (p : Page) : Page :=
  {| state := {| isLoading := b; email := email (state p);
                 showEmailInput := showEmailInput (state p) |};
     location_href := location_href p; pushed := pushed p; timers := timers p |}.

Definition setEmail (v : string) (p : Page) : Page :=
  {| state := {| isLoading := isLoading (state p); email := v;
                 showEmailInput := showEmailInput (state p) |};
     location_href := location_href p; pushed := pushed p; timers := timers p |}.

Definition setShowEmailInput (b : bool) (p : Page) : Page :=
  {| state := {| isLoading := isLoading (state p); email := email (state p);
                 showEmailInput := b |};
     location_href := location_href p; pushed := pushed p; timers := timers p |}.

Definition router_push (route : string) (p : Page) : Page :=
  {| state := state p; location_href := location_href p;
     pushed := pushed p ++ [route]; timers := timers p |}.

Definition set_location_href (target : string) (p : Page) : Page :=
  {| state := state p; location_href := Some target;
     pushed := pushed p; timers := timers p |}.

Definition setTimeout (delay_ms : Z) (p : Page) : Page :=
  {| state := state p; location_href := location_href p;
     pushed := pushed p; timers := timers p ++ [delay_ms] |}.

(** The address [handleGitHubLogin] navigates to; nothing in it is
    URL-encoded. *)
Definition authorize_url (env : Env) : string :=
  let clientId :=
    or_else (NEXT_PUBLIC_GITHUB_CLIENT_ID env) "your_github_oauth_client_id_here" in
  let redirectUri := origin env ++ "/auth/callback" in
  let scope := "repo,user" in
  "https://github.com/login/oauth/authorize?client_id=" ++ clientId
  ++ "&redirect_uri=" ++ redirectUri ++ "&scope=" ++ scope.

Definition handleGitHubLogin (env : Env) (p : Page) : Page :=
  set_location_href (authorize_url env) (setIsLoading true p).

(** [handleEmailLogin]: the callback itself runs when the timer fires. *)
Definition handleEmailLogin (p : Page) : Page :=
  setTimeout 1500 (setIsLoading true p).

(** The callback given to [setTimeout] by [handleEmailLogin]. *)
Definition email_timer_callback (p : Page) : Page :=
  router_push "/" (setIsLoading false p).

(** The part of the JSX that depends on the state: the GitHub button, and
    either the "Continue with Email" button or the form. *)
Record FormView := {
  input_value : string;
  submit_disabled : bool;
  submit_label : string;
}.

Record View := {
  github_disabled : bool;
  github_spinner : bool;
  email_form : option FormView;   (* [None]: the "Continue with Email" button *)
}.

Definition render (st : State) : View :=
  {| github_disabled := isLoading st;
     github_spinner := isLoading st;
     email_form :=
       if negb (showEmailInput st) then None
       else Some {| input_value := email st;
                    submit_disabled := isLoading st || negb (truthy (Some (email st)));
                    submit_label := if isLoading st then "Signing in..." else "Sign In" |} |}.

(** What can happen to the page. [SubmitEmail] is the user asking for the
    form to be submitted (the button, or Enter in the field). *)
Inductive Event :=
  | ClickGitHub
  | ClickContinueWithEmail
  | ChangeEmail (value : string)
  | SubmitEmail
  | ClickBack
  | TimerFires.

(** One event on the page as it is rendered: a control that is not drawn or
    is disabled does nothing, and the form fires no submit event for an
    address the browser refuses. *)
Definition step (env : Env) (p : Page) (ev : Event) : Page :=
  let view := render (state p) in
  match ev with
  | ClickGitHub =>
      if github_disabled view then p else handleGitHubLogin env p
  | ClickContinueWithEmail =>
      match email_form view with
      | None => setShowEmailInput true p
      | Some _ => p
      end
  | ChangeEmail value =>
      match email_form view with
      | Some _ => setEmail value p
      | None => p
      end
  | SubmitEmail =>
      match email_form view with
      | Some form =>
          if submit_disabled form then p
          else if accepts_email env (input_value form) then handleEmailLogin p
          else p
      | None => p
      end
  | ClickBack =>
      match email_form view with
      | Some _ => setShowEmailInput false p
      | None => p
      end
  | TimerFires =>
      match timers p with
      | [] => p
      | _ :: rest =>
          email_timer_callback
            {| state := state p; location_href := location_href p;
               pushed := pushed p; timers := rest |}
      end
  end.

Definition run (env : Env) (p : Page) (events : list Event) : Page :=
  fold_left (step env) events p.

(** The number of submissions among some events. *)
Fixpoint submissions (events : list Event) : nat :=
  match events with
  | [] => 0
  | SubmitEmail :: rest => S (submissions rest)
  | _ :: rest => submissions rest
  end.

Definition is_ChangeEmail (ev : Event) : bool :=
  match ev with
  | ChangeEmail _ => true
  | _ => false
  end.

(** The timers a page can have pending: none, or the one of a sign-in under
    way, during which the page is loading. *)
Definition pending_ok (p : Page) : Prop :=
  timers p = [] ∨ (timers p = [1500%Z] ∧ isLoading (state p) = true).

End LoginPage.

(** * Sample inputs *)

Module Samples.

(** A profile as the backend returns it. *)
Definition sample_user : Json.Json :=
  Json.JObject [("login", Json.JString "octocat"); ("id", Json.JNumber 1)].

Definition sample_data : AuthCallback.TokenData Json.Json :=
  {| AuthCallback.access_token := "gho_1"; AuthCallback.user := sample_user |}.

(** A backend that answers the code [abc] with a token and a profile, and
    refuses any other. *)
Definition sample_backend : AuthCallback.Backend Json.Json :=
  fun req =>
    if decide (AuthCallback.body_code req = "abc")
    then AuthCallback.Response true (AuthCallback.BodyData sample_data)
    else AuthCallback.Response false AuthCallback.BodyInvalid.

(** A storage with room for everything, and one in which the profile does
    not fit. *)
Definition roomy : gmap string string → string → string → bool :=
  fun _ _ _ => false.

Definition no_room_for_profile : gmap string string → string → string → bool :=
  fun _ key _ => String.eqb key "user".

Definition code_file (name content : string) : MultiFileCodeCard.CodeFile :=
  {| MultiFileCodeCard.name := Some name;
     MultiFileCodeCard.content := Some content;
     MultiFileCodeCard.description := Some "modernised";
     MultiFileCodeCard.confidence_score := None;
     MultiFileCodeCard.key_changes := None |}.

Definition comparison (name before after : string) : MultiFileCodeCard.Comparison :=
  {| MultiFileCodeCard.old := Some (code_file name before);
     MultiFileCodeCard.new := Some (code_file name after) |}.

(** Two files: [a.ts], whose new content has three lines, and [b.ts], whose
    new content is empty. *)
Definition sample_files : list MultiFileCodeCard.Comparison :=
  [comparison "a.ts" "var x"
     (String.append "let x" (String MultiFileCodeCard.LF
        (String.append "let y" (String MultiFileCodeCard.LF ""))));
   comparison "b.ts" "" ""].

(** A job as submission creates it, and a status event for it. *)
Definition sample_job (s : JobStateMachine.Status) : JobStateMachine.Job :=
  {| JobStateMachine.jobId := "job-1";
     JobStateMachine.repositoryReference := "octocat/hello";
     JobStateMachine.status := s;
     JobStateMachine.submittedAt := 0;
     JobStateMachine.files := [] |}.

Definition status_event (s : JobStateMachine.Status) : JobStateMachine.ProgressEvent :=
  {| JobStateMachine.event_jobId := "job-1";
     JobStateMachine.eventType := "status";
     JobStateMachine.payload := JobStateMachine.StatusPayload s |}.

(** A named file followed by one whose [old] side has no name. *)
Definition nameless_files : list MultiFileCodeCard.Comparison :=
  [comparison "a.ts" "" "";
   {| MultiFileCodeCard.old := None; MultiFileCodeCard.new := None |}].

End Samples.

Module MoreSamples.

(** A backend that is down. *)
Definition offline_backend : AuthCallback.Backend Json.Json :=
  fun _ => AuthCallback.NetworkError.

(** A backend that refuses with a well-formed payload in the body. *)
Definition refusing_backend : AuthCallback.Backend Json.Json :=
  fun _ =>
    AuthCallback.Response false
      (AuthCallback.BodyData
         {| AuthCallback.access_token := "gho_2";
            AuthCallback.user := Json.JString "mallory" |}).

(** A storage that holds an earlier session and a setting of another part of
    the application. *)
Definition used_storage : gmap string string :=
  <["theme" := "dark"]> (<["auth_token" := "gho_0"]> ∅).

(** A deployment with its client id, and one without. *)
Definition configured_env : LoginPage.Env :=
  {| LoginPage.NEXT_PUBLIC_GITHUB_CLIENT_ID := Some "Iv1.abc";
     LoginPage.origin := "https://dependify.vercel.app";
     LoginPage.accepts_email := LoginPage.html_valid_email |}.

Definition bare_env : LoginPage.Env :=
  {| LoginPage.NEXT_PUBLIC_GITHUB_CLIENT_ID := None;
     LoginPage.origin := "http://localhost:3000";
     LoginPage.accepts_email := LoginPage.html_valid_email |}.

End MoreSamples.

(** * Properties of the callback page *)

Lemma truthy_Some s : truthy (Some s) = true ↔ s ≠ "".
Proof.
  simpl. destruct (String.eqb_spec s ""); simpl; split; congruence.
Qed.

Lemma or_else_truthy v d : truthy v = true → or_else v d = default d v.
Proof.
  destruct v as [s|]; simpl; [|discriminate].
  destruct (String.eqb s ""); simpl; congruence.
Qed.

Module AuthCallbackFacts.
Import AuthCallback Samples.

Section WithUser.
Context {User : Type} (JSON_stringify : User → string)
  (quota_exceeded : gmap string string → string → string → bool).

Implicit Types (storage : gmap string string) (sp : URLSearchParams)
  (backend : Backend User) (data : TokenData User).

(** Splits on the answers of the storage to the writes in the goal. *)
Ltac quota_cases :=
  repeat (match goal with
          | |- context [quota_exceeded ?store ?key ?value] =>
              let H := fresh "Hquota" in
              destruct (quota_exceeded store key value) eqn:H
          end; cbn).

(** Splits a run along the branches of [handleCallback], the answers of the
    backend and those of the storage, and evaluates each. *)
Ltac callback_cases sp backend :=
  unfold run, handleCallback;
  destruct (truthy (get sp "error")) eqn:Htruthy_error;
  [ | destruct (truthy (get sp "code")) eqn:Htruthy_code;
      [ cbv [try_catch bind fetch mount emit localStorage_setItem];
        destruct (backend (exchange_request (or_else (get sp "code") "")))
          as [ | [ | ] [ | | data0 ] ] eqn:Hbackend
      | ] ];
  cbn; quota_cases.

Lemma storage_accepts storage data :
  storage_refuses JSON_stringify quota_exceeded storage data = false →
  quota_exceeded storage "auth_token" (access_token data) = false
  ∧ quota_exceeded (<["auth_token" := access_token data]> storage)
      "user" (JSON_stringify (user data)) = false.
Proof. unfold storage_refuses. by intros [? ?]%orb_false_iff. Qed.

Lemma error_param_branch storage sp backend :
  truthy (get sp "error") = true →
  fails_to_login storage (run JSON_stringify quota_exceeded storage sp backend)
  ∧ errorMessage (run JSON_stringify quota_exceeded storage sp backend)
    = "Authentication was cancelled or failed".
Proof.
  intros H. unfold fails_to_login, run, handleCallback. rewrite H. by cbn.
Qed.

Lemma no_code_branch storage sp backend :
  truthy (get sp "error") = false →
  truthy (get sp "code") = false →
  fails_to_login storage (run JSON_stringify quota_exceeded storage sp backend)
  ∧ errorMessage (run JSON_stringify quota_exceeded storage sp backend)
    = "No authorization code received".
Proof.
  intros H1 H2. unfold fails_to_login, run, handleCallback. rewrite H1, H2. by cbn.
Qed.

(** The [try] block run to its end: a truthy [code], no truthy [error], an
    [ok] answer carrying the payload, and a storage with room for it. *)
Lemma exchange_branch storage sp backend data :
  truthy (get sp "error") = false →
  truthy (get sp "code") = true →
  backend (exchange_request (or_else (get sp "code") ""))
  = Response true (BodyData data) →
  storage_refuses JSON_stringify quota_exceeded storage data = false →
  run JSON_stringify quota_exceeded storage sp backend
  = {| status := Success;
       errorMessage := "";
       localStorage := <["user" := JSON_stringify (user data)]>
                         (<["auth_token" := access_token data]> storage);
       trace := [EFetch (exchange_request (or_else (get sp "code") ""));
                 ESetItem "auth_token" (access_token data);
                 ESetItem "user" (JSON_stringify (user data));
                 ESetStatus Success;
                 ESetTimeout "/" 1500%Z] |}.
Proof.
  intros H1 H2 H3 [H4 H5]%storage_accepts. unfold run, handleCallback.
  rewrite H1, H2.
  cbv [try_catch bind fetch mount emit localStorage_setItem]. rewrite H3.
  cbn. rewrite H4. cbn. rewrite H5. by cbn.
Qed.

(** [handleCallback] always returns: whatever is thrown inside the [try]
    block is caught, and the handler throws nothing. *)
Lemma handleCallback_returns storage sp backend :
  fst (handleCallback JSON_stringify quota_exceeded sp backend (mount storage))
  = @Returned unit tt.
Proof. by callback_cases sp backend. Qed.

(** C4 (as amended): when the callback is invoked with a non-empty [error]
    query parameter, or with the [code] query parameter absent, the page
    enters the error state, schedules exactly one redirect, to [/login]
    after 3000 ms, and attempts no token exchange. *)
Theorem callback_error_or_no_code storage sp backend :
  (∃ e, get sp "error" = Some e ∧ e ≠ "") ∨ get sp "code" = None →
  let w := run JSON_stringify quota_exceeded storage sp backend in
  status w = Error
  ∧ scheduled (trace w) = [("/login", 3000%Z)]
  ∧ exchanges (trace w) = [].
Proof.
  intros H w.
  assert (Hcases : truthy (get sp "error") = true
                   ∨ truthy (get sp "error") = false
                     ∧ truthy (get sp "code") = false).
  { destruct H as [(e & He & Hne) | Hc].
    - left. rewrite He. by apply truthy_Some.
    - destruct (truthy (get sp "error")); [by left | right].
      by rewrite Hc. }
  destruct Hcases as [He | [He Hc]].
  - destruct (error_param_branch storage sp backend He) as [(? & ? & ? & _) _].
    by repeat split.
  - destruct (no_code_branch storage sp backend He Hc) as [(? & ? & ? & _) _].
    by repeat split.
Qed.

(** C5 (as amended): when the callback is invoked with a valid (non-empty)
    [code] and no truthy [error], so that the exchange is attempted, the
    backend answers it [ok] with the payload [data], and the storage has room
    for the two writes, the storage gains [auth_token] and [user] from the
    payload, the page enters the success state, and exactly one redirect is
    scheduled, to [/] after 1500 ms. *)
Theorem callback_success storage sp backend code data :
  truthy (get sp "error") = false →
  get sp "code" = Some code →
  code ≠ "" →
  backend (exchange_request code) = Response true (BodyData data) →
  storage_refuses JSON_stringify quota_exceeded storage data = false →
  let w := run JSON_stringify quota_exceeded storage sp backend in
  localStorage w
    = <["user" := JSON_stringify (user data)]>
        (<["auth_token" := access_token data]> storage)
  ∧ writes (trace w)
    = [("auth_token", access_token data); ("user", JSON_stringify (user data))]
  ∧ status w = Success
  ∧ scheduled (trace w) = [("/", 1500%Z)].
Proof.
  intros Herror Hcode Hne Hbackend Hroom w. subst w.
  assert (Hc : truthy (get sp "code") = true)
    by (rewrite Hcode; by apply truthy_Some).
  assert (Hor : or_else (get sp "code") "" = code).
  { rewrite Hcode. simpl. by destruct (String.eqb_spec code ""). }
  rewrite <- Hor in Hbackend.
  by rewrite (exchange_branch storage sp backend data Herror Hc Hbackend Hroom).
Qed.


(** C10 (as amended): on the failure paths - a truthy [error], a falsy
    [code], an exchange that fails - the page is in the error state, the
    storage is left as it was and nothing is written. A write happens only
    after the request was sent and answered [ok] with a payload, and the
    first write is that of the token of the payload. *)
Theorem callback_failure_keeps_storage storage sp backend :
  let w := run JSON_stringify quota_exceeded storage sp backend in
  let code := or_else (get sp "code") "" in
  (failure_path sp backend →
   status w = Error ∧ localStorage w = storage ∧ writes (trace w) = [])
  ∧ (writes (trace w) ≠ [] →
     ∃ data rest,
       truthy (get sp "error") = false
       ∧ backend (exchange_request code) = Response true (BodyData data)
       ∧ trace w
         = EFetch (exchange_request code)
           :: ESetItem "auth_token" (access_token data) :: rest).
Proof.
  intros w code. subst w code. unfold failure_path, exchange_fails.
  callback_cases sp backend; rewrite ?Hbackend; split; try done.
  all: try (intros [? | [? | Hf]]; try discriminate; by destruct (Hf data0)).
  all: intros _; eexists data0, _; by repeat split.
Qed.

End WithUser.

Lemma callback_error_or_no_code_witness :
  let w := run Json.stringify roomy ∅ [("error", "access_denied")] sample_backend in
  status w = Error
  ∧ scheduled (trace w) = [("/login", 3000%Z)]
  ∧ exchanges (trace w) = [].
Proof.
  apply (callback_error_or_no_code Json.stringify roomy ∅
           [("error", "access_denied")] sample_backend).
  left. exists "access_denied". split; [reflexivity | discriminate].
Defined.

(** C4 as stated fails: an [error] parameter that is present and empty is
    falsy, and with a [code] the exchange is attempted. *)
Lemma callback_empty_error_param_not_failure :
  let sp := [("error", ""); ("code", "abc")] in
  let w := run Json.stringify roomy ∅ sp sample_backend in
  ¬ (is_Some (get sp "error") ∨ get sp "code" = None →
     status w = Error
     ∧ scheduled (trace w) = [("/login", 3000%Z)]
     ∧ exchanges (trace w) = []).
Proof.
  intros sp w H.
  destruct H as [Hstatus _]; [left; by eexists |].
  vm_compute in Hstatus. discriminate Hstatus.
Qed.

Example callback_empty_error_param_run :
  let w := run Json.stringify roomy ∅ [("error", ""); ("code", "abc")] sample_backend in
  status w = Success
  ∧ scheduled (trace w) = [("/", 1500%Z)]
  ∧ exchanges (trace w) = [exchange_request "abc"]
  ∧ writes (trace w)
    = [("auth_token", "gho_1"); ("user", Json.stringify sample_user)].
Proof. vm_compute. done. Qed.

(** The profile is stored as JSON text, quotation marks included. *)
Example stringify_sample_user :
  Json.stringify sample_user
  = String.append "{"
      (String.append (Json.quote "login")
         (String.append ":"
            (String.append (Json.quote "octocat")
               (String.append ","
                  (String.append (Json.quote "id") ":1}")))))
  ∧ String.length (Json.quote "octocat") = 9.
Proof. vm_compute. done. Qed.

Lemma callback_success_witness :
  let w := run Json.stringify roomy ∅ [("code", "abc")] sample_backend in
  localStorage w
    = <["user" := Json.stringify sample_user]> (<["auth_token" := "gho_1"]> ∅)
  ∧ writes (trace w)
    = [("auth_token", "gho_1"); ("user", Json.stringify sample_user)]
  ∧ status w = Success
  ∧ scheduled (trace w) = [("/", 1500%Z)].
Proof.
  apply (callback_success Json.stringify roomy ∅ [("code", "abc")] sample_backend
           "abc" sample_data).
  - reflexivity.
  - reflexivity.
  - discriminate.
  - reflexivity.
  - reflexivity.
Defined.

(** C5 as stated fails: with a valid [code] and an exchange that succeeds,
    a storage in which the profile does not fit makes the second [setItem]
    throw; the page ends in the error state with the redirect to the login
    view, and the profile is not stored. *)
Lemma callback_success_needs_room :
  let sp := [("code", "abc")] in
  let w := run Json.stringify no_room_for_profile ∅ sp sample_backend in
  ¬ (get sp "code" = Some "abc"
     ∧ sample_backend (exchange_request "abc") = Response true (BodyData sample_data) →
     localStorage w
       = <["user" := Json.stringify sample_user]> (<["auth_token" := "gho_1"]> ∅)
     ∧ status w = Success
     ∧ scheduled (trace w) = [("/", 1500%Z)]).
Proof.
  intros sp w H.
  destruct H as (_ & Hstatus & _); [by split |].
  vm_compute in Hstatus. discriminate Hstatus.
Qed.

Example callback_no_room_run :
  let w := run Json.stringify no_room_for_profile ∅ [("code", "abc")] sample_backend in
  status w = Error
  ∧ errorMessage w = "Failed to complete authentication"
  ∧ scheduled (trace w) = [("/login", 3000%Z)]
  ∧ writes (trace w) = [("auth_token", "gho_1")]
  ∧ localStorage w !! "auth_token" = Some "gho_1"
  ∧ localStorage w !! "user" = None.
Proof. vm_compute. done. Qed.


Lemma callback_failure_keeps_storage_witness :
  let w := run Json.stringify roomy ∅ [("code", "zzz")] sample_backend in
  status w = Error ∧ localStorage w = ∅ ∧ writes (trace w) = [].
Proof.
  destruct (callback_failure_keeps_storage Json.stringify roomy ∅
              [("code", "zzz")] sample_backend) as [Hfail _].
  apply Hfail. right. right. intros data. discriminate.
Defined.

(** C10 as stated fails, twice. An [error] parameter that is present and
    empty does not keep the session from being stored; and when the profile
    does not fit in the storage the run ends in the error state, through the
    [catch] block, with the token already written. *)
Lemma callback_failure_path_with_write :
  ¬ (is_Some (get [("error", ""); ("code", "abc")] "error") →
     localStorage
       (run Json.stringify roomy ∅ [("error", ""); ("code", "abc")] sample_backend)
     = ∅)
  ∧ ¬ (status (run Json.stringify no_room_for_profile ∅ [("code", "abc")] sample_backend)
       = Error →
       localStorage
         (run Json.stringify no_room_for_profile ∅ [("code", "abc")] sample_backend)
       = ∅).
Proof.
  split; intros H.
  - assert (Hlookup :
      localStorage
        (run Json.stringify roomy ∅ [("error", ""); ("code", "abc")] sample_backend)
      !! "auth_token" = Some "gho_1") by (by vm_compute).
    rewrite H in Hlookup; [|by eexists]. by rewrite lookup_empty in Hlookup.
  - assert (Hlookup :
      localStorage
        (run Json.stringify no_room_for_profile ∅ [("code", "abc")] sample_backend)
      !! "auth_token" = Some "gho_1") by (by vm_compute).
    rewrite H in Hlookup; [|by vm_compute]. by rewrite lookup_empty in Hlookup.
Qed.

End AuthCallbackFacts.

(** * Properties of the diff presentation component *)

Module MultiFileCodeCardFacts.
Import MultiFileCodeCard Samples.

(** Closes [x ∉ l] for a name and a list that are both given. *)
Ltac absent_name :=
  let H := fresh "H" in
  vm_compute; intros H;
  repeat (apply elem_of_cons in H as [H|H]; [discriminate H|]);
  by apply elem_of_nil in H.

Lemma split_newline_nonempty s : split_newline s ≠ [].
Proof.
  destruct s as [|c rest]; simpl; [done|].
  destruct (Ascii.eqb c LF); [done|].
  by destruct (split_newline rest).
Qed.

(** [split] on the line feed yields one segment more than there are line
    feeds. *)
Lemma length_split_newline s :
  length (split_newline s) = newline_separated_lines s.
Proof.
  induction s as [|c rest IH]; simpl; [done|].
  destruct (Ascii.eqb c LF); simpl; [by rewrite IH|].
  pose proof (split_newline_nonempty rest) as Hne.
  destruct (split_newline rest) as [|seg segs]; [done|].
  by rewrite <- IH.
Qed.

Lemma fold_left_add_lines (items : list Comparison) (acc : nat) :
  fold_left
    (fun acc file => acc + length (split_newline (or_else (new_content file) "")))
    items acc
  = acc + sum_list (map (fun file =>
                           newline_separated_lines (or_else (new_content file) ""))
                      items).
Proof.
  revert acc. induction items as [|file rest IH]; intros acc; simpl; [lia|].
  rewrite IH, length_split_newline. lia.
Qed.

Lemma totalLines_sum (items : list Comparison) :
  totalLines items
  = sum_list (map (fun file =>
                     newline_separated_lines (or_else (new_content file) ""))
                items).
Proof. unfold totalLines. by rewrite fold_left_add_lines. Qed.

(** A render with files leaves two hooks behind, whatever the selection
    becomes afterwards; a render of the placeholder leaves one. *)
Lemma render_leaves_hooks (p : Props) (stored : option State) (st : State)
    (card : Card) :
  MultiFileCodeCard p stored = Some (st, card) →
  hooks st = hooks_of (files_or_default p)
  ∧ ∀ fileName, hooks (setActiveFile fileName st) = hooks st.
Proof.
  unfold MultiFileCodeCard, hooks_of.
  destruct (useState_activeFile (files_or_default p) stored); [|done].
  destruct (no_files (files_or_default p)).
  - destruct (hooks_agree stored 1); [|done]. by intros [= <- <-].
  - destruct (hooks_agree stored 2); [|done]. by intros [= <- <-].
Qed.

(** C7: for every non-empty file sequence, whenever the component shows a
    card - and it does at the first render and at every render that follows
    one with files - the footer shows the number of pairs as "Files Changed"
    and, as "Lines Written", the sum over the pairs of the number of
    newline-separated lines of the new content, whatever the link, the
    selection and the old sides are. *)
Theorem stats_of_files (items : list Comparison) (link : option string)
    (stored : option State) :
  items ≠ [] →
  (∀ st card,
     MultiFileCodeCard {| files := FilesArray items; link := link |} stored
     = Some (st, card) →
     filesChanged <$> cardFooter card = Some (length items)
     ∧ linesWritten <$> cardFooter card
       = Some (sum_list (map (fun file =>
                                newline_separated_lines
                                  (or_else (new_content file) ""))
                           items)))
  ∧ (hooks_agree stored 2 = true →
     ∃ st card,
       MultiFileCodeCard {| files := FilesArray items; link := link |} stored
       = Some (st, card)).
Proof.
  intros Hne. destruct items as [|file rest]; [done|].
  unfold MultiFileCodeCard, useState_activeFile.
  cbn -[totalLines sum_list hooks_agree]. split.
  - intros st card. destruct (hooks_agree stored 2); [|done].
    intros [= <- <-]. cbn -[totalLines sum_list].
    split; [done|]. by rewrite totalLines_sum.
  - intros ->. by eexists _, _.
Qed.

Lemma stats_of_files_witness :
  ∃ st card,
    (MultiFileCodeCard {| files := FilesArray sample_files; link := None |} None
     = Some (st, card)
     ∧ filesChanged <$> cardFooter card = Some 2
     ∧ linesWritten <$> cardFooter card = Some 4)
    ∧ ∃ st' card',
        MultiFileCodeCard {| files := FilesArray nameless_files; link := None |}
          (Some st)
        = Some (st', card')
        ∧ filesChanged <$> cardFooter card' = Some 2
        ∧ linesWritten <$> cardFooter card' = Some 2.
Proof.
  destruct (stats_of_files sample_files None None) as [Hstats Hcard];
    [discriminate|].
  destruct (Hcard eq_refl) as (st & card & Hrender).
  exists st, card. split; [split; [exact Hrender | exact (Hstats st card Hrender)]|].
  destruct (render_leaves_hooks _ _ _ _ Hrender) as [Hhooks _].
  destruct (stats_of_files nameless_files None (Some st)) as [Hstats' Hcard'];
    [discriminate|].
  destruct Hcard' as (st' & card' & Hrender').
  { unfold hooks_agree. rewrite Hhooks. reflexivity. }
  exists st', card'. split; [exact Hrender' | exact (Hstats' st' card' Hrender')].
Defined.

(** The placeholder card: a title and nothing else, at the first render and
    after a render that showed it. *)
Lemma render_no_files (p : Props) (stored : option State) :
  files p = FilesUndefined ∨ files p = FilesArray []
  ∨ (∃ n, files p = FilesNotArray n) →
  hooks_agree stored 1 = true →
  ∃ st,
    MultiFileCodeCard p stored
    = Some (st, {| title := "No files to display";
                   cardContent := None; cardFooter := None |}).
Proof.
  unfold MultiFileCodeCard, files_or_default, useState_activeFile.
  intros [-> | [-> | [n ->]]] Hagree; cbn -[hooks_agree]; rewrite Hagree;
    by eexists.
Qed.

(** C9 (the defect): [files = null] is a value the guard of the early
    return is there for, but the default does not apply to it and [files[0]]
    in the [useState] call above the guard throws: at the first render and at
    every later one, the component yields no card at all, not the
    placeholder. *)
Theorem render_null_files_throws (link : option string) (stored : option State) :
  no_files FilesNull = true
  ∧ files_or_default {| files := FilesNull; link := link |} = FilesNull
  ∧ MultiFileCodeCard {| files := FilesNull; link := link |} stored = None.
Proof.
  split; [reflexivity|]. split; [reflexivity|].
  unfold MultiFileCodeCard, useState_activeFile. by cbn.
Qed.

Lemma file_not_listed_no_panel (active : string) (items : list Comparison) :
  active ∉ file_names items → render_panels active items = [].
Proof.
  unfold render_panels, file_names.
  induction items as [|file rest IH]; intros Hnot; [done|].
  cbn in Hnot. apply not_elem_of_cons in Hnot as [Hne Hrest].
  cbn. unfold render_panel at 1.
  destruct (String.eqb_spec (or_else (old_name file) "") active) as [Heq|_].
  - by destruct Hne.
  - by apply IH.
Qed.

(** C6 (as amended): selecting a name on a card with files makes it the
    active selection, whether or not it is in the file set; with a name that
    is absent from the set the card is rendered with that selection and with
    no file panel. The first file's name is the selection only at the first
    render. *)
Theorem select_absent_file (items : list Comparison) (link : option string)
    (fileName : string) (st : State) :
  items ≠ [] →
  hooks st = 2 →
  fileName ∉ file_names items →
  activeFile (setActiveFile fileName st) = fileName
  ∧ ∃ card,
      MultiFileCodeCard {| files := FilesArray items; link := link |}
        (Some (setActiveFile fileName st))
      = Some ({| activeFile := fileName; hooks := 2 |}, card)
      ∧ snd <$> cardContent card = Some [].
Proof.
  intros Hne Hhooks Habsent. split; [done|].
  destruct items as [|file rest]; [done|].
  unfold MultiFileCodeCard, useState_activeFile.
  cbn -[render_panels render_tabs totalLines]. rewrite Hhooks.
  eexists. split; [reflexivity|]. cbn -[render_panels render_tabs totalLines].
  by rewrite file_not_listed_no_panel.
Qed.

Lemma select_absent_file_witness :
  activeFile (setActiveFile "ghost.ts" {| activeFile := "b.ts"; hooks := 2 |})
  = "ghost.ts"
  ∧ ∃ card,
      MultiFileCodeCard {| files := FilesArray sample_files; link := None |}
        (Some (setActiveFile "ghost.ts" {| activeFile := "b.ts"; hooks := 2 |}))
      = Some ({| activeFile := "ghost.ts"; hooks := 2 |}, card)
      ∧ snd <$> cardContent card = Some [].
Proof.
  apply (select_absent_file sample_files None "ghost.ts"
           {| activeFile := "b.ts"; hooks := 2 |}).
  - discriminate.
  - reflexivity.
  - absent_name.
Defined.

(** C6 as stated fails: with the files [a.ts], [b.ts] and [b.ts] selected,
    selecting the absent [ghost.ts] neither keeps [b.ts] nor falls back to
    the first file [a.ts]. *)
Lemma select_absent_file_changes_selection :
  ¬ (("ghost.ts" ∉ file_names sample_files) →
     activeFile (setActiveFile "ghost.ts" {| activeFile := "b.ts"; hooks := 2 |})
     = "b.ts"
     ∨ Some (activeFile
               (setActiveFile "ghost.ts" {| activeFile := "b.ts"; hooks := 2 |}))
       = head (file_names sample_files)).
Proof.
  intros H. destruct H as [H|H]; [absent_name | |]; vm_compute in H; discriminate H.
Qed.

(** The initial selection is the first file's name. *)
Lemma initial_selection (file : Comparison) (rest : list Comparison) :
  useState_activeFile (FilesArray (file :: rest)) None
  = Some (or_else (old_name file) "").
Proof. reflexivity. Qed.

(** A click can select an absent name: the tab of a file without a name is
    called [file-1], its panel answers to the empty name. *)
Example click_nameless_tab :
  ∃ st card,
    MultiFileCodeCard {| files := FilesArray nameless_files; link := None |} None
    = Some (st, card)
    ∧ activeFile st = "a.ts"
    ∧ activeFile (click_tab 1 (st, card)) = "file-1"
    ∧ "file-1" ∉ file_names nameless_files.
Proof.
  eexists _, _. split; [reflexivity|]. split; [reflexivity|]. split; [reflexivity|].
  absent_name.
Qed.

End MultiFileCodeCardFacts.

(** * Properties of the job status reducer *)

Module JobStateMachineFacts.
Import JobStateMachine Samples.

Lemma set_status_same (job : Job) : set_status job (status job) = job.
Proof. by destruct job. Qed.

Lemma status_reduce (job : Job) (ev : ProgressEvent) :
  status (reduce job ev)
  = match target_status ev with
    | Some target => next_status (status job) target
    | None => status job
    end.
Proof. unfold reduce. by destruct (target_status ev). Qed.

Lemma next_status_earlier (current target : Status) :
  earlier target current = true → next_status current target = current.
Proof. destruct current, target; vm_compute; congruence. Qed.

Lemma next_status_terminal (current target : Status) :
  terminal current = true → next_status current target = current.
Proof. unfold next_status. by intros ->. Qed.

Lemma next_status_idempotent (current target : Status) :
  next_status (next_status current target) target = next_status current target.
Proof. by destruct current, target. Qed.

Lemma follows_refl (a : Status) : follows a a = true.
Proof. by destruct a. Qed.

Lemma follows_trans (a b c : Status) :
  follows a b = true → follows b c = true → follows a c = true.
Proof. destruct a, b, c; vm_compute; congruence. Qed.

Lemma follows_next_status (current target : Status) :
  follows current (next_status current target) = true.
Proof. by destruct current, target. Qed.

Lemma follows_not_earlier (a b : Status) :
  follows a b = true → earlier b a = false.
Proof. destruct a, b; vm_compute; congruence. Qed.

Lemma follows_reduce (job : Job) (ev : ProgressEvent) :
  follows (status job) (status (reduce job ev)) = true.
Proof.
  rewrite status_reduce. destruct (target_status ev).
  - apply follows_next_status.
  - apply follows_refl.
Qed.

Lemma follows_replay (events : list ProgressEvent) (job : Job) :
  follows (status job) (status (replay job events)) = true.
Proof.
  revert job. induction events as [|ev rest IH]; intros job; simpl.
  - apply follows_refl.
  - eapply follows_trans; [apply follows_reduce | apply IH].
Qed.

Lemma replay_app (job : Job) (seen rest : list ProgressEvent) :
  replay job (seen ++ rest)%list = replay (replay job seen) rest.
Proof. apply fold_left_app. Qed.

(** C1: an event whose target status is earlier in the canonical sequence
    than the current status leaves the job as it is; and after any delivery
    of events, in any order, the status is not earlier in the canonical
    sequence than the status observed after any part of the delivery. *)
Theorem replay_never_earlier (job : Job) (events : list ProgressEvent) :
  (∀ ev target,
     target_status ev = Some target →
     earlier target (status job) = true →
     reduce job ev = job)
  ∧ (∀ seen rest : list ProgressEvent,
       events = (seen ++ rest)%list →
       earlier (status (replay job events)) (status (replay job seen)) = false).
Proof.
  split.
  - intros ev target Htarget Hearlier. unfold reduce. rewrite Htarget.
    rewrite (next_status_earlier _ _ Hearlier). apply set_status_same.
  - intros seen rest ->. rewrite replay_app.
    apply follows_not_earlier, follows_replay.
Qed.

Lemma replay_never_earlier_witness :
  reduce (sample_job refactoring) (status_event analyzing) = sample_job refactoring
  ∧ earlier
      (status (replay (sample_job queued)
                 [status_event queued; status_event refactoring; status_event analyzing]))
      (status (replay (sample_job queued)
                 [status_event queued; status_event refactoring]))
    = false.
Proof.
  split.
  - apply (proj1 (replay_never_earlier (sample_job refactoring) [])
             (status_event analyzing) analyzing); reflexivity.
  - apply (proj2 (replay_never_earlier (sample_job queued)
                    [status_event queued; status_event refactoring; status_event analyzing])
             [status_event queued; status_event refactoring] [status_event analyzing]).
    reflexivity.
Defined.

(** The scenarios of the specification: delivery in order ends in [opened];
    an [analyzing] event that comes after [refactoring] is ignored. *)
Example replay_in_order :
  status (replay (sample_job queued)
            (status_event <$> [queued; analyzing; refactoring; validating;
                               committing; opened]))
  = opened.
Proof. reflexivity. Qed.

Example replay_out_of_order :
  status (replay (sample_job queued)
            (status_event <$> [queued; refactoring; analyzing]))
  = refactoring.
Proof. reflexivity. Qed.

(** C2: once the status is [failed], an event of any type and any payload
    leaves it [failed], and so does any further delivery of events. *)
Theorem failed_is_sticky (job : Job) (ev : ProgressEvent)
    (events : list ProgressEvent) :
  status job = failed →
  status (reduce job ev) = failed
  ∧ status (replay job events) = failed.
Proof.
  intros Hfailed. split.
  - rewrite status_reduce, Hfailed. by destruct (target_status ev).
  - pose proof (follows_replay events job) as Hf. rewrite Hfailed in Hf.
    by destruct (status (replay job events)).
Qed.

Lemma failed_is_sticky_witness :
  status (reduce (sample_job failed) (status_event opened)) = failed
  ∧ status (replay (sample_job failed) [status_event queued; status_event opened])
    = failed.
Proof.
  apply (failed_is_sticky (sample_job failed) (status_event opened)
           [status_event queued; status_event opened]).
  reflexivity.
Defined.

(** C3: the reducer is idempotent: applying an event twice gives the job
    that applying it once gives. *)
Theorem reduce_idempotent (job : Job) (ev : ProgressEvent) :
  reduce (reduce job ev) ev = reduce job ev.
Proof.
  unfold reduce. destruct (target_status ev) as [target|]; [|done].
  unfold set_status; simpl. by rewrite next_status_idempotent.
Qed.

End JobStateMachineFacts.

(** * Further properties of the callback page *)

Module AuthCallbackMore.
Import AuthCallback Samples MoreSamples.

Lemma scheduled_app (t1 t2 : list Effect) :
  scheduled (t1 ++ t2) = (scheduled t1 ++ scheduled t2)%list.
Proof.
  induction t1 as [|e t1 IH]; [done|]. destruct e; simpl; by rewrite ?IH.
Qed.

Lemma exchanges_app (t1 t2 : list Effect) :
  exchanges (t1 ++ t2) = (exchanges t1 ++ exchanges t2)%list.
Proof.
  induction t1 as [|e t1 IH]; [done|]. destruct e; simpl; by rewrite ?IH.
Qed.

Lemma logged_app (t1 t2 : list Effect) :
  logged (t1 ++ t2) = (logged t1 ++ logged t2)%list.
Proof.
  induction t1 as [|e t1 IH]; [done|]. destruct e; simpl; by rewrite ?IH.
Qed.

Section WithUser.
Context {User : Type} (JSON_stringify : User → string)
  (quota_exceeded : gmap string string → string → string → bool).

Implicit Types (storage : gmap string string) (sp : URLSearchParams)
  (backend : Backend User) (data : TokenData User) (start : World).

(** Splits [handleCallback] started in any world along its branches and the
    answers of the backend. *)
Ltac callback_cases_from sp backend :=
  unfold handleCallback;
  destruct (truthy (get sp "error")) eqn:Htruthy_error;
  [ | destruct (truthy (get sp "code")) eqn:Htruthy_code;
      [ cbv [try_catch bind fetch emit localStorage_setItem];
        destruct (backend (exchange_request (or_else (get sp "code") "")))
          as [ | [ | ] [ | | data0 ] ] eqn:Hbackend
      | ] ];
  cbn;
  repeat (match goal with
          | |- context [quota_exceeded ?store ?key ?value] =>
              let H := fresh "Hquota" in
              destruct (quota_exceeded store key value) eqn:H
          end; cbn).

(** X1: started in any world, [handleCallback] ends in the success or the
    error state, never in the loading one, and adds exactly one redirect to
    the timers already pending, which it leaves in place: to [/] after
    1500 ms with the success state, to [/login] after 3000 ms with the error
    state. *)
Theorem callback_one_redirect start sp backend :
  let w := snd (handleCallback JSON_stringify quota_exceeded sp backend start) in
  (status w = Success
   ∧ scheduled (trace w) = (scheduled (trace start) ++ [("/", 1500%Z)])%list)
  ∨ (status w = Error
     ∧ scheduled (trace w) = (scheduled (trace start) ++ [("/login", 3000%Z)])%list).
Proof.
  callback_cases_from sp backend; rewrite !scheduled_app; cbn;
    rewrite ?app_nil_r; auto.
Qed.

(** X2: whatever is thrown inside the [try] block is caught and the handler
    throws nothing: started in any world, [handleCallback] returns, so the
    promise the effect drops is never rejected. *)
Theorem callback_never_rejects start sp backend :
  fst (handleCallback JSON_stringify quota_exceeded sp backend start) = @Returned unit tt.
Proof. by callback_cases_from sp backend. Qed.

(** X3: at most one request is sent, whatever the backend answers; a request
    that is sent is the POST of JSON to the address of the local backend, it
    carries the first [code] of the query unchanged, and that code is not
    empty and no truthy [error] came with it. *)
Theorem callback_request sp storage backend (req : Request) :
  req ∈ exchanges (trace (run JSON_stringify quota_exceeded storage sp backend)) →
  exchanges (trace (run JSON_stringify quota_exceeded storage sp backend)) = [req]
  ∧ url req = "http://localhost:5001/auth/github"
  ∧ method req = "POST"
  ∧ content_type req = "application/json"
  ∧ get sp "code" = Some (body_code req)
  ∧ body_code req ≠ ""
  ∧ truthy (get sp "error") = false.
Proof.
  assert (Hcode : truthy (get sp "code") = true →
                  get sp "code" = Some (or_else (get sp "code") "")
                  ∧ or_else (get sp "code") "" ≠ "").
  { destruct (get sp "code") as [c|]; simpl; [|discriminate].
    destruct (String.eqb_spec c ""); simpl; [discriminate | done]. }
  unfold run. callback_cases_from sp backend; intros Hin;
    try (by apply elem_of_nil in Hin);
    apply list_elem_of_singleton in Hin; subst req;
    destruct (Hcode eq_refl) as [? ?]; by repeat split.
Qed.

(** X4: a response that is not [ok] is refused whatever its body carries,
    a well-formed payload included: nothing is stored, the failure is logged
    once as "Failed to authenticate", and the page shows "Failed to complete
    authentication". *)
Theorem callback_refused_response storage sp backend (body : Body User) :
  truthy (get sp "error") = false →
  truthy (get sp "code") = true →
  backend (exchange_request (or_else (get sp "code") "")) = Response false body →
  let w := run JSON_stringify quota_exceeded storage sp backend in
  localStorage w = storage
  ∧ writes (trace w) = []
  ∧ logged (trace w) = [("Authentication error:", FailedToAuthenticate)]
  ∧ status w = Error
  ∧ errorMessage w = "Failed to complete authentication".
Proof.
  intros H1 H2 H3. unfold run, handleCallback. rewrite H1, H2.
  cbv [try_catch bind fetch mount emit]. rewrite H3. by cbn.
Qed.


(** X6: started in any world, [handleCallback] touches no entry of the
    storage other than [auth_token] and [user], and removes none. *)
Theorem callback_storage_frame start sp backend (key : string) :
  let w := snd (handleCallback JSON_stringify quota_exceeded sp backend start) in
  (key ≠ "auth_token" → key ≠ "user" →
   localStorage w !! key = localStorage start !! key)
  ∧ (is_Some (localStorage start !! key) → is_Some (localStorage w !! key)).
Proof.
  callback_cases_from sp backend; split; try done.
  all: try (intros H1 H2; by rewrite ?lookup_insert_ne).
  all: intros Hsome; rewrite ?lookup_insert; repeat case_decide; eauto.
Qed.

(** X7: the message of the page tells the path taken: it stays empty
    exactly when the run succeeds; the first two messages stand for a truthy
    [error] and for a falsy [code]; the third stands for everything caught
    in the [try] block - an exchange that fails, or one that succeeds into
    a storage that refuses the session. *)
Theorem callback_message_tells_path storage sp backend :
  let w := run JSON_stringify quota_exceeded storage sp backend in
  let code := or_else (get sp "code") "" in
  (errorMessage w = "" ↔ status w = Success)
  ∧ (errorMessage w = "Authentication was cancelled or failed"
     ↔ truthy (get sp "error") = true)
  ∧ (errorMessage w = "No authorization code received"
     ↔ truthy (get sp "error") = false ∧ truthy (get sp "code") = false)
  ∧ (errorMessage w = "Failed to complete authentication"
     ↔ truthy (get sp "error") = false ∧ truthy (get sp "code") = true
       ∧ (exchange_fails backend code
          ∨ ∃ data,
              backend (exchange_request code) = Response true (BodyData data)
              ∧ storage_refuses JSON_stringify quota_exceeded storage data = true)).
Proof.
  cbn zeta. unfold run, exchange_fails, storage_refuses.
  callback_cases_from sp backend; rewrite ?Hbackend.
  all: split; [by split|]; split; [by split|]; split;
    [split; [done | by intros [? ?]]|].
  all: split; try done; try (by intros (? & ? & ?)).
  all: try (intros _; repeat split; left; intros d; discriminate).
  - intros _. repeat split. right. exists data0. by rewrite Hquota.
  - intros _. repeat split. right. exists data0. by rewrite Hquota, Hquota0.
  - intros (_ & _ & [Hf | (d & [= <-] & Hr)]); [by destruct (Hf data0)|].
    by rewrite Hquota, Hquota0 in Hr.
Qed.

(** X8: the card shows exactly one block in any state; after a run it is the
    success block with the redirect to the dashboard pending, or the error
    block, carrying the message of the run, with the redirect to the login
    page pending. *)
Theorem page_after_callback storage sp backend :
  (∀ w : World, length (render_page w) = 1)
  ∧ let w := run JSON_stringify quota_exceeded storage sp backend in
    (render_page w
     = [{| heading := "Success!"; text := "Redirecting to your dashboard...";
           small_print := None |}]
     ∧ scheduled (trace w) = [("/", 1500%Z)])
    ∨ (render_page w
       = [{| heading := "Authentication Failed"; text := errorMessage w;
             small_print := Some "Redirecting to login page..." |}]
       ∧ scheduled (trace w) = [("/login", 3000%Z)]).
Proof.
  split.
  - intros w. unfold render_page. by destruct (status w).
  - unfold run. callback_cases_from sp backend; auto.
Qed.

(** X9: the effect has no cleanup. When [handleCallback] has succeeded -
    the exchange answered [ok] and the storage had room - and runs again on
    the page it left, with an exchange that now fails, the session stored by
    the first run stays, the page turns to the error state, and both
    redirects are pending. *)
Theorem callback_rerun_after_success storage sp backend backend' data :
  truthy (get sp "error") = false →
  truthy (get sp "code") = true →
  backend (exchange_request (or_else (get sp "code") ""))
  = Response true (BodyData data) →
  storage_refuses JSON_stringify quota_exceeded storage data = false →
  exchange_fails backend' (or_else (get sp "code") "") →
  let w1 := run JSON_stringify quota_exceeded storage sp backend in
  let w2 := snd (handleCallback JSON_stringify quota_exceeded sp backend' w1) in
  localStorage w2 = localStorage w1
  ∧ localStorage w2 !! "auth_token" = Some (access_token data)
  ∧ status w2 = Error
  ∧ scheduled (trace w2) = [("/", 1500%Z); ("/login", 3000%Z)].
Proof.
  intros H1 H2 H3 Hroom Hf w1 w2. subst w2 w1.
  rewrite (AuthCallbackFacts.exchange_branch JSON_stringify quota_exceeded
             storage sp backend data H1 H2 H3 Hroom).
  unfold exchange_fails in Hf.
  unfold handleCallback. rewrite H1, H2.
  cbv [try_catch bind fetch emit localStorage_setItem].
  destruct (backend' (exchange_request (or_else (get sp "code") "")))
    as [ | [ | ] [ | | data0 ] ] eqn:Hbackend; cbn.
  all: try (by destruct (Hf data0)).
  all: repeat split; try done.
  all: by rewrite lookup_insert_ne, lookup_insert_eq.
Qed.

End WithUser.

Lemma callback_request_witness :
  exchanges (trace (run Json.stringify roomy ∅ [("code", "abc"); ("code", "xyz")] sample_backend))
  = [exchange_request "abc"]
  ∧ url (exchange_request "abc") = "http://localhost:5001/auth/github"
  ∧ method (exchange_request "abc") = "POST"
  ∧ content_type (exchange_request "abc") = "application/json"
  ∧ get [("code", "abc"); ("code", "xyz")] "code" = Some (body_code (exchange_request "abc"))
  ∧ body_code (exchange_request "abc") ≠ ""
  ∧ truthy (get [("code", "abc"); ("code", "xyz")] "error") = false.
Proof.
  apply (callback_request Json.stringify roomy [("code", "abc"); ("code", "xyz")] ∅ sample_backend
           (exchange_request "abc")).
  vm_compute. apply list_elem_of_here.
Defined.

Lemma callback_refused_response_witness :
  let w := run Json.stringify roomy used_storage [("code", "abc")] refusing_backend in
  localStorage w = used_storage
  ∧ writes (trace w) = []
  ∧ logged (trace w) = [("Authentication error:", FailedToAuthenticate)]
  ∧ status w = Error
  ∧ errorMessage w = "Failed to complete authentication".
Proof.
  apply (callback_refused_response Json.stringify roomy used_storage [("code", "abc")] refusing_backend
           (BodyData {| access_token := "gho_2"; user := Json.JString "mallory" |}));
    reflexivity.
Defined.

Lemma callback_storage_frame_witness :
  let w := snd (handleCallback Json.stringify roomy [("code", "abc")] sample_backend (mount used_storage)) in
  localStorage w !! "theme" = Some "dark"
  ∧ is_Some (localStorage w !! "auth_token").
Proof.
  destruct (callback_storage_frame Json.stringify roomy (mount used_storage) [("code", "abc")]
              sample_backend "theme") as [Hframe _].
  destruct (callback_storage_frame Json.stringify roomy (mount used_storage) [("code", "abc")]
              sample_backend "auth_token") as [_ Hkept].
  split.
  - rewrite Hframe; [reflexivity | discriminate | discriminate].
  - apply Hkept. by eexists.
Defined.

Lemma callback_message_tells_path_witness :
  errorMessage
    (run Json.stringify no_room_for_profile ∅ [("code", "abc")] sample_backend)
  = "Failed to complete authentication".
Proof.
  destruct (callback_message_tells_path Json.stringify no_room_for_profile ∅
              [("code", "abc")] sample_backend)
    as (_ & _ & _ & Hcaught).
  apply Hcaught. split; [reflexivity|]. split; [reflexivity|].
  right. exists sample_data. split; reflexivity.
Defined.

Lemma callback_rerun_after_success_witness :
  let w1 := run Json.stringify roomy ∅ [("code", "abc")] sample_backend in
  let w2 := snd (handleCallback Json.stringify roomy [("code", "abc")] offline_backend w1) in
  localStorage w2 = localStorage w1
  ∧ localStorage w2 !! "auth_token" = Some "gho_1"
  ∧ status w2 = Error
  ∧ scheduled (trace w2) = [("/", 1500%Z); ("/login", 3000%Z)].
Proof.
  apply (callback_rerun_after_success Json.stringify roomy ∅ [("code", "abc")] sample_backend
           offline_backend sample_data);
    try reflexivity.
  intros data. discriminate.
Defined.

End AuthCallbackMore.

(** * Further properties of the diff presentation component *)

Module MultiFileCodeCardMore.
Import MultiFileCodeCard Samples MoreSamples.

Lemma or_else_Some_empty (s : string) : or_else (Some s) "" = s.
Proof. simpl. by destruct (String.eqb_spec s "") as [->|]. Qed.

Lemma or_else_nonempty (v : option string) (d : string) :
  d ≠ "" → or_else v d ≠ "".
Proof.
  intros Hd. destruct v as [s|]; simpl; [|done].
  by destruct (String.eqb_spec s "").
Qed.

Lemma or_else_truthy_eq (v : option string) (d1 d2 : string) :
  truthy v = true → or_else v d1 = or_else v d2.
Proof.
  destruct v as [s|]; simpl; [|discriminate].
  by destruct (String.eqb s "").
Qed.

Lemma or_else_falsy (v : option string) (d : string) :
  truthy v = false → or_else v d = d.
Proof.
  destruct v as [s|]; simpl; [|done].
  by destruct (String.eqb s "").
Qed.

Lemma tab_name_nonempty (index : nat) (file : Comparison) :
  tab_name index file ≠ "".
Proof. unfold tab_name. by apply or_else_nonempty. Qed.

Lemma eqb_refl_true (s : string) : String.eqb s s = true.
Proof. by apply String.eqb_eq. Qed.

(** X10: [split] on the line feed loses nothing: joining the segments with
    line feeds gives the text back, and no segment contains a line feed. *)
Theorem join_split_newline (s : string) :
  join_newline (split_newline s) = s
  ∧ Forall (fun seg => has_LF seg = false) (split_newline s).
Proof.
  induction s as [|c rest [IHjoin IHfree]]; [by repeat constructor|].
  pose proof (MultiFileCodeCardFacts.split_newline_nonempty rest) as Hne.
  cbn [split_newline]. destruct (Ascii.eqb c LF) eqn:Hc.
  - apply Ascii.eqb_eq in Hc as ->. split; [|by constructor].
    destruct (split_newline rest) as [|seg segs]; [done|].
    cbn [join_newline]. cbn [join_newline] in IHjoin. by rewrite IHjoin.
  - destruct (split_newline rest) as [|seg segs]; [done|]. split.
    + cbn [join_newline]. cbn [join_newline] in IHjoin.
      destruct segs; simpl; by rewrite <- IHjoin.
    + inversion IHfree as [|? ? Hseg Hsegs]; subst.
      constructor; [|done]. simpl. by rewrite Hc.
Qed.

Lemma lines_at_least_one (s : string) : (1 ≤ newline_separated_lines s)%nat.
Proof. induction s as [|c rest IH]; simpl; [lia|]. destruct (Ascii.eqb c LF); lia. Qed.

Lemma one_line_iff_no_LF (s : string) :
  newline_separated_lines s = 1 ↔ has_LF s = false.
Proof.
  induction s as [|c rest IH]; simpl; [done|].
  pose proof (lines_at_least_one rest).
  destruct (Ascii.eqb c LF); simpl; [split; [lia | discriminate] | done].
Qed.

(** X11: "Lines Written" is never below "Files Changed": every file counts
    for at least one line, an empty or missing new content included; the two
    numbers are equal exactly when no new content contains a line feed. *)
Theorem totalLines_at_least_files (items : list Comparison) :
  (length items ≤ totalLines items)%nat
  ∧ (totalLines items = length items
     ↔ Forall (fun file => has_LF (or_else (new_content file) "") = false) items).
Proof.
  rewrite MultiFileCodeCardFacts.totalLines_sum.
  induction items as [|file rest [IHle IHeq]]; simpl; [by repeat constructor|].
  pose proof (lines_at_least_one (or_else (new_content file) "")) as H1.
  split; [lia|]. rewrite Forall_cons, <- IHeq, <- one_line_iff_no_LF. lia.
Qed.

Lemma totalLines_at_least_files_witness :
  (length sample_files ≤ totalLines sample_files)%nat
  ∧ totalLines nameless_files = length nameless_files.
Proof.
  destruct (totalLines_at_least_files sample_files) as [Hle _].
  destruct (totalLines_at_least_files nameless_files) as [_ Heq].
  split; [exact Hle | apply Heq; by repeat constructor].
Defined.

(** X12: the line count of two sequences put together is the sum of their
    line counts, and it depends on the new contents only: the old sides, the
    names and the descriptions do not enter it. *)
Theorem totalLines_app (items1 items2 : list Comparison) :
  totalLines (items1 ++ items2) = totalLines items1 + totalLines items2
  ∧ (new_content <$> items1 = new_content <$> items2 →
     totalLines items1 = totalLines items2).
Proof.
  rewrite !MultiFileCodeCardFacts.totalLines_sum. split.
  - rewrite map_app. induction (map _ items1) as [|n l IH]; simpl; lia.
  - intros Heq.
    change (map (fun file => newline_separated_lines (or_else (new_content file) "")) ?l)
      with ((fun file => newline_separated_lines (or_else (new_content file) "")) <$> l).
    change (fun file => newline_separated_lines (or_else (new_content file) ""))
      with ((fun c => newline_separated_lines (or_else c "")) ∘ new_content).
    by rewrite !list_fmap_compose, Heq.
Qed.

Lemma totalLines_app_witness :
  totalLines (sample_files ++ nameless_files)
  = totalLines sample_files + totalLines nameless_files
  ∧ totalLines [comparison "a.ts" "old" "x"] = totalLines [comparison "b.ts" "" "x"].
Proof.
  destruct (totalLines_app sample_files nameless_files) as [Happ _].
  destruct (totalLines_app [comparison "a.ts" "old" "x"] [comparison "b.ts" "" "x"])
    as [_ Hnew].
  split; [exact Happ | apply Hnew; reflexivity].
Defined.

Lemma render_tabs_lookup (active : string) (items : list Comparison) (k i : nat) :
  render_tabs active k items !! i
  = (fun file => {| tab_fileName := tab_name (k + i) file;
                    tab_active := String.eqb active (tab_name (k + i) file) |})
    <$> items !! i.
Proof.
  revert k i. induction items as [|file rest IH]; intros k i; [done|].
  destruct i as [|i]; simpl.
  - by rewrite Nat.add_0_r.
  - rewrite IH. by replace (S k + i) with (k + S i) by lia.
Qed.

Lemma length_render_tabs (active : string) (items : list Comparison) (k : nat) :
  length (render_tabs active k items) = length items.
Proof. revert k. induction items as [|file rest IH]; intros k; simpl; by rewrite ?IH. Qed.

Lemma render_panel_spec (active : string) (file : Comparison) :
  render_panel active file
  = if decide (panel_name file = active) then Some (panel_of file) else None.
Proof.
  unfold render_panel, panel_of, panel_name.
  destruct (String.eqb_spec (or_else (old_name file) "") active);
    by case_decide.
Qed.

(** What a render of a non-empty array returns, at the first render and
    after a render with files. *)
Lemma render_files (file : Comparison) (rest : list Comparison)
    (link : option string) (stored : option State) :
  hooks_agree stored 2 = true →
  MultiFileCodeCard {| files := FilesArray (file :: rest); link := link |} stored
  = Some ({| activeFile := from_option activeFile (panel_name file) stored;
             hooks := 2 |},
          {| title := "Code Changes";
             cardContent :=
               Some (render_tabs
                       (from_option activeFile (panel_name file) stored)
                       0 (file :: rest),
                     render_panels
                       (from_option activeFile (panel_name file) stored)
                       (file :: rest));
             cardFooter := Some {| filesChanged := length (file :: rest);
                                   linesWritten := totalLines (file :: rest);
                                   pullRequestLink := default "#" link |} |}).
Proof.
  intros Hagree. unfold MultiFileCodeCard, useState_activeFile.
  cbn -[hooks_agree render_tabs render_panels totalLines]. rewrite Hagree.
  by destruct stored, link.
Qed.

(** X13: the card of a non-empty array has one tab per file, in order; the
    tab of the file at [index] is called by the old name of the file, or
    [file-index] when it has none, and is drawn active exactly when that name
    is the active selection. This holds at the first render and at every
    render that follows one with files. *)
Theorem tabs_of_files (items : list Comparison) (link : option string)
    (stored : option State) :
  items ≠ [] →
  hooks_agree stored 2 = true →
  ∃ st card,
    MultiFileCodeCard {| files := FilesArray items; link := link |} stored
    = Some (st, card)
    ∧ length (tabs_of card) = length items
    ∧ ∀ index,
        tabs_of card !! index
        = (fun file =>
             {| tab_fileName := tab_name index file;
                tab_active := bool_decide (activeFile st = tab_name index file) |})
          <$> items !! index.
Proof.
  intros Hne Hagree. destruct items as [|file rest]; [done|].
  eexists _, _. split; [by apply render_files|]. cbn [tabs_of cardContent activeFile].
  split; [apply length_render_tabs|]. intros index.
  rewrite render_tabs_lookup. destruct ((file :: rest) !! index); [|done].
  simpl. f_equal. f_equal.
  destruct (String.eqb_spec (from_option activeFile (panel_name file) stored)
              (tab_name index c)); by case_bool_decide.
Qed.

Lemma tabs_of_files_witness :
  ∃ st card,
    MultiFileCodeCard {| files := FilesArray nameless_files; link := None |} None
    = Some (st, card)
    ∧ length (tabs_of card) = length nameless_files
    ∧ ∀ index,
        tabs_of card !! index
        = (fun file =>
             {| tab_fileName := tab_name index file;
                tab_active := bool_decide (activeFile st = tab_name index file) |})
          <$> nameless_files !! index.
Proof.
  apply (tabs_of_files nameless_files None None); [discriminate | reflexivity].
Defined.

Lemma render_panels_filter (active : string) (items : list Comparison) :
  render_panels active items
  = panel_of <$> filter (fun file => panel_name file = active) items.
Proof.
  unfold render_panels. induction items as [|file rest IH]; [done|].
  cbn [omap list_omap]. rewrite filter_cons, render_panel_spec.
  case_decide; simpl; by rewrite IH.
Qed.

(** X14: the panels of the card of a non-empty array are, in order, the
    panels of exactly those files whose old name (the empty name when there
    is none) is the active selection; files that share a name are drawn
    together, and a selection that names no file draws none. This holds at
    the first render and at every render that follows one with files. *)
Theorem panels_of_active (file : Comparison) (rest : list Comparison)
    (link : option string) (stored : option State) :
  hooks_agree stored 2 = true →
  ∃ st card,
    MultiFileCodeCard {| files := FilesArray (file :: rest); link := link |} stored
    = Some (st, card)
    ∧ panels_of card
      = panel_of <$> filter (fun f => panel_name f = activeFile st) (file :: rest).
Proof.
  intros Hagree. eexists _, _. split; [by apply render_files|].
  cbn [panels_of cardContent activeFile]. apply render_panels_filter.
Qed.

Lemma panels_of_active_witness :
  ∃ st card,
    MultiFileCodeCard {| files := FilesArray sample_files; link := None |}
      (Some {| activeFile := "b.ts"; hooks := 2 |})
    = Some (st, card)
    ∧ panels_of card
      = panel_of <$> filter (fun f => panel_name f = activeFile st) sample_files.
Proof.
  apply (panels_of_active (comparison "a.ts" "var x" _) [comparison "b.ts" "" ""]
           None (Some {| activeFile := "b.ts"; hooks := 2 |})).
  reflexivity.
Defined.

Lemma click_tab_rendered (st : State) (heading : string) (tabs : list Tab)
    (panels : list Panel) (footer : option Footer) (index : nat) :
  click_tab index
    (st, {| title := heading; cardContent := Some (tabs, panels);
            cardFooter := footer |})
  = match tabs !! index with
    | Some tab => {| activeFile := tab_fileName tab; hooks := hooks st |}
    | None => st
    end.
Proof. reflexivity. Qed.

(** X15: on a card with files - drawn at the first render or after a
    render with files - clicking the tab of a file that has a name selects
    the file: at the next render its tab is drawn active and its panel is
    among the panels drawn. *)
Theorem click_named_tab (items : list Comparison) (link : option string)
    (stored : option State) (index : nat) (file : Comparison) :
  items !! index = Some file →
  truthy (old_name file) = true →
  hooks_agree stored 2 = true →
  ∃ st card card',
    MultiFileCodeCard {| files := FilesArray items; link := link |} stored
    = Some (st, card)
    ∧ MultiFileCodeCard {| files := FilesArray items; link := link |}
        (Some (click_tab index (st, card)))
      = Some ({| activeFile := panel_name file; hooks := 2 |}, card')
    ∧ tabs_of card' !! index
      = Some {| tab_fileName := panel_name file; tab_active := true |}
    ∧ panel_of file ∈ panels_of card'.
Proof.
  intros Hlookup Hname Hagree. destruct items as [|first rest]; [done|].
  assert (Hsame : tab_name index file = panel_name file)
    by (by apply or_else_truthy_eq).
  eexists _, _, _. split; [by apply render_files|].
  rewrite click_tab_rendered, render_tabs_lookup, Hlookup.
  cbn [fmap option_fmap option_map tab_fileName hooks].
  rewrite Nat.add_0_l, Hsame, render_files by done. split; [reflexivity|].
  cbn [tabs_of panels_of cardContent from_option activeFile]. split.
  - rewrite render_tabs_lookup, Hlookup.
    cbv [fmap option_fmap option_map id]. rewrite Nat.add_0_l, Hsame.
    cbn [activeFile]. by rewrite eqb_refl_true.
  - rewrite render_panels_filter. apply list_elem_of_fmap. exists file. split; [done|].
    apply list_elem_of_filter. split; [done|]. by eapply list_elem_of_lookup_2.
Qed.

Lemma click_named_tab_witness :
  ∃ st card card',
    MultiFileCodeCard {| files := FilesArray sample_files; link := None |} None
    = Some (st, card)
    ∧ MultiFileCodeCard {| files := FilesArray sample_files; link := None |}
        (Some (click_tab 1 (st, card)))
      = Some ({| activeFile := "b.ts"; hooks := 2 |}, card')
    ∧ tabs_of card' !! 1 = Some {| tab_fileName := "b.ts"; tab_active := true |}
    ∧ panel_of (comparison "b.ts" "" "") ∈ panels_of card'.
Proof.
  apply (click_named_tab sample_files None None 1 (comparison "b.ts" "" ""));
    reflexivity.
Defined.

(** X16: on a card with files - drawn at the first render or after a
    render with files - clicking the tab of a file that has no name selects
    [file-index], the name of the tab, while the panel of the file answers to
    the empty name: at the next render the tab is drawn active and, unless
    some file is really called [file-index], no panel is drawn at all. *)
Theorem nameless_tab_hides_panels (items : list Comparison) (link : option string)
    (stored : option State) (index : nat) (file : Comparison) :
  items !! index = Some file →
  truthy (old_name file) = false →
  ("file-" ++ string_of_index index) ∉ file_names items →
  hooks_agree stored 2 = true →
  ∃ st card card',
    MultiFileCodeCard {| files := FilesArray items; link := link |} stored
    = Some (st, card)
    ∧ MultiFileCodeCard {| files := FilesArray items; link := link |}
        (Some (click_tab index (st, card)))
      = Some ({| activeFile := "file-" ++ string_of_index index; hooks := 2 |},
              card')
    ∧ tabs_of card' !! index
      = Some {| tab_fileName := "file-" ++ string_of_index index;
                tab_active := true |}
    ∧ panels_of card' = [].
Proof.
  intros Hlookup Hname Habsent Hagree. destruct items as [|first rest]; [done|].
  assert (Hsame : tab_name index file = "file-" ++ string_of_index index)
    by (by apply or_else_falsy).
  eexists _, _, _. split; [by apply render_files|].
  rewrite click_tab_rendered, render_tabs_lookup, Hlookup.
  cbn [fmap option_fmap option_map tab_fileName hooks].
  rewrite Nat.add_0_l, Hsame, render_files by done. split; [reflexivity|].
  cbn [tabs_of panels_of cardContent from_option activeFile]. split.
  - rewrite render_tabs_lookup, Hlookup.
    cbv [fmap option_fmap option_map id]. rewrite Nat.add_0_l, Hsame.
    cbn [activeFile]. by rewrite eqb_refl_true.
  - by apply MultiFileCodeCardFacts.file_not_listed_no_panel.
Qed.

Lemma nameless_tab_hides_panels_witness :
  ∃ st card card',
    MultiFileCodeCard {| files := FilesArray nameless_files; link := None |} None
    = Some (st, card)
    ∧ MultiFileCodeCard {| files := FilesArray nameless_files; link := None |}
        (Some (click_tab 1 (st, card)))
      = Some ({| activeFile := "file-" ++ string_of_index 1; hooks := 2 |},
              card')
    ∧ tabs_of card' !! 1
      = Some {| tab_fileName := "file-" ++ string_of_index 1; tab_active := true |}
    ∧ panels_of card' = [].
Proof.
  apply (nameless_tab_hides_panels nameless_files None None 1
           {| old := None; new := None |}).
  - reflexivity.
  - reflexivity.
  - vm_compute. intros H.
    repeat (apply elem_of_cons in H as [H|H]; [discriminate H|]).
    by apply elem_of_nil in H.
  - reflexivity.
Defined.

Lemma render_tabs_inactive (items : list Comparison) (k : nat) :
  Forall (fun tab => tab_active tab = false) (render_tabs "" k items).
Proof.
  revert k. induction items as [|file rest IH]; intros k; simpl; constructor;
    [|apply IH].
  simpl. fold (tab_name k file). pose proof (tab_name_nonempty k file) as Hne.
  destruct (tab_name k file); [done | reflexivity].
Qed.

(** X17: the first render of a non-empty array selects the first file and
    draws its panel first; the first tab is drawn active exactly when the
    first file has a name, and when it has none no tab at all is drawn
    active. *)
Theorem first_render (file : Comparison) (rest : list Comparison)
    (link : option string) :
  ∃ st card,
    MultiFileCodeCard {| files := FilesArray (file :: rest); link := link |} None
    = Some (st, card)
    ∧ activeFile st = panel_name file
    ∧ head (panels_of card) = Some (panel_of file)
    ∧ tab_active <$> head (tabs_of card) = Some (truthy (old_name file))
    ∧ (truthy (old_name file) = false →
       Forall (fun tab => tab_active tab = false) (tabs_of card)).
Proof.
  eexists _, _. split; [by apply render_files|].
  cbn [tabs_of panels_of cardContent from_option activeFile]. split; [done|]. split.
  - rewrite render_panels_filter, filter_cons. by case_decide.
  - cbn [render_tabs head fmap option_fmap option_map tab_active].
    fold (tab_name 0 file).
    destruct (truthy (old_name file)) eqn:Hname.
    + split; [|done]. f_equal. unfold panel_name.
      rewrite (or_else_truthy_eq _ "" ("file-" ++ string_of_index 0) Hname).
      apply eqb_refl_true.
    + assert (Hempty : panel_name file = "") by (by apply or_else_falsy).
      rewrite Hempty. split.
      * f_equal. pose proof (tab_name_nonempty 0 file).
        destruct (tab_name 0 file); [done | reflexivity].
      * intros _. apply (render_tabs_inactive (file :: rest) 0).
Qed.

Lemma first_render_witness :
  ∃ st card,
    MultiFileCodeCard
      {| files := FilesArray [{| old := None; new := None |}; comparison "a.ts" "" ""];
         link := None |} None
    = Some (st, card)
    ∧ activeFile st = ""
    ∧ Forall (fun tab => tab_active tab = false) (tabs_of card).
Proof.
  destruct (first_render {| old := None; new := None |} [comparison "a.ts" "" ""] None)
    as (st & card & Hrender & Hactive & _ & _ & Hnone).
  exists st, card. split; [exact Hrender|]. split; [exact Hactive|].
  apply Hnone. reflexivity.
Defined.

(** X18: for every value of [files] other than [null], the first render
    returns a card, which is the placeholder - the title "No files to
    display" with no tabs, panels or footer - exactly when [files] is not a
    non-empty array. A later render returns a card, and keeps the selection,
    exactly when the render before it was on the same side of the early
    return; a render that crosses it - files after the placeholder, or the
    placeholder after files - throws, the number of hooks having changed. *)
Theorem placeholder_card (p : Props) :
  files p ≠ FilesNull →
  (∃ st card,
     MultiFileCodeCard p None = Some (st, card)
     ∧ hooks st = hooks_of (files_or_default p)
     ∧ (card = {| title := "No files to display";
                  cardContent := None; cardFooter := None |}
        ↔ ∀ file rest, files p ≠ FilesArray (file :: rest)))
  ∧ ∀ previous : State,
      (hooks previous = hooks_of (files_or_default p) →
       ∃ card, MultiFileCodeCard p (Some previous) = Some (previous, card))
      ∧ (hooks previous ≠ hooks_of (files_or_default p) →
         MultiFileCodeCard p (Some previous) = None).
Proof.
  intros Hnull. destruct p as [f l].
  destruct f as [ | |n|[|file rest]]; [ |done| | |].
  all: unfold MultiFileCodeCard, files_or_default, useState_activeFile,
         files_0_old_name, hooks_of, no_files, hooks_agree;
       cbn [files length Nat.eqb].
  all: split;
    [eexists _, _; split; [reflexivity|]; split; [reflexivity|]
    |intros [active n']; cbn [hooks activeFile]; split;
       [intros ->; cbn; by eexists
       |intros Hne; by destruct n' as [|[|[|?]]]]].
  1-3: by split.
  split; [discriminate|]. intros Hall. by destruct (Hall file rest).
Qed.

Lemma placeholder_card_witness :
  (∃ card,
     MultiFileCodeCard {| files := FilesArray []; link := None |}
       (Some {| activeFile := ""; hooks := 1 |})
     = Some ({| activeFile := ""; hooks := 1 |}, card))
  ∧ MultiFileCodeCard {| files := FilesArray sample_files; link := None |}
      (Some {| activeFile := ""; hooks := 1 |})
    = None
  ∧ MultiFileCodeCard {| files := FilesArray []; link := None |}
      (Some {| activeFile := "a.ts"; hooks := 2 |})
    = None.
Proof.
  destruct (placeholder_card {| files := FilesArray []; link := None |})
    as [_ Hempty]; [discriminate|].
  destruct (placeholder_card {| files := FilesArray sample_files; link := None |})
    as [_ Hfiles]; [discriminate|].
  split; [|split].
  - apply (Hempty {| activeFile := ""; hooks := 1 |}). reflexivity.
  - apply (Hfiles {| activeFile := ""; hooks := 1 |}). discriminate.
  - apply (Hempty {| activeFile := "a.ts"; hooks := 2 |}). discriminate.
Defined.

End MultiFileCodeCardMore.

(** * Properties of the login page *)

Module LoginPageFacts.
Import LoginPage MoreSamples.

Lemma string_app_assoc (a b c : string) : (a ++ b) ++ c = a ++ b ++ c.
Proof.
  induction a as [|ch a IH]; [done|].
  change (String ch ((a ++ b) ++ c) = String ch (a ++ b ++ c)). by f_equal.
Qed.

(** X19: the address of the GitHub login always names a client: the
    configured id when there is one, and the placeholder
    [your_github_oauth_client_id_here] when the variable is unset or empty.
    It sends GitHub back to [/auth/callback] on the origin of the page, with
    the scope [repo,user]. *)
Theorem authorize_url_shape (env : Env) :
  ∃ clientId,
    clientId ≠ ""
    ∧ authorize_url env
      = "https://github.com/login/oauth/authorize?client_id=" ++ clientId
        ++ "&redirect_uri=" ++ origin env ++ "/auth/callback&scope=repo,user"
    ∧ (truthy (NEXT_PUBLIC_GITHUB_CLIENT_ID env) = true →
       NEXT_PUBLIC_GITHUB_CLIENT_ID env = Some clientId)
    ∧ (truthy (NEXT_PUBLIC_GITHUB_CLIENT_ID env) = false →
       clientId = "your_github_oauth_client_id_here").
Proof.
  exists (or_else (NEXT_PUBLIC_GITHUB_CLIENT_ID env) "your_github_oauth_client_id_here").
  split; [|split; [|split]].
  - destruct (NEXT_PUBLIC_GITHUB_CLIENT_ID env) as [s|]; simpl; [|done].
    by destruct (String.eqb_spec s "").
  - unfold authorize_url. cbv zeta.
    change (origin env ++ "/auth/callback&scope=repo,user")
      with (origin env ++ "/auth/callback" ++ "&scope=" ++ "repo,user").
    by rewrite (string_app_assoc (origin env)).
  - destruct (NEXT_PUBLIC_GITHUB_CLIENT_ID env) as [s|]; simpl; [|discriminate].
    by destruct (String.eqb s "").
  - destruct (NEXT_PUBLIC_GITHUB_CLIENT_ID env) as [s|]; simpl; [|done].
    by destruct (String.eqb s "").
Qed.

Lemma authorize_url_shape_witness :
  ∃ clientId,
    clientId ≠ ""
    ∧ authorize_url bare_env
      = "https://github.com/login/oauth/authorize?client_id=" ++ clientId
        ++ "&redirect_uri=" ++ origin bare_env ++ "/auth/callback&scope=repo,user"
    ∧ (truthy (NEXT_PUBLIC_GITHUB_CLIENT_ID bare_env) = true →
       NEXT_PUBLIC_GITHUB_CLIENT_ID bare_env = Some clientId)
    ∧ (truthy (NEXT_PUBLIC_GITHUB_CLIENT_ID bare_env) = false →
       clientId = "your_github_oauth_client_id_here").
Proof. apply (authorize_url_shape bare_env). Defined.

Lemma step_pending (env : Env) (p : Page) (ev : Event) :
  pending_ok p → pending_ok (step env p ev).
Proof.
  unfold pending_ok, step, render.
  destruct p as [[loading mail shown] href routes pending]; cbn.
  intros [-> | [-> ->]]; destruct ev, shown; cbn; auto;
    destruct loading; cbn; auto;
    destruct (String.eqb mail ""); cbn; auto;
    destruct (accepts_email env mail); cbn; auto.
Qed.

Lemma run_pending (env : Env) (events : list Event) (p : Page) :
  pending_ok p → pending_ok (run env p events).
Proof.
  revert p. induction events as [|ev rest IH]; intros p Hp; [done|].
  apply IH, step_pending, Hp.
Qed.

(** X20: whatever the user does, at most one sign-in timer is pending, its
    delay is 1500 ms, and while it is pending the page is loading - so the
    GitHub button and the submit button are disabled and no second timer can
    be started. *)
Theorem at_most_one_timer (env : Env) (events : list Event) :
  let p := run env initial events in
  timers p = []
  ∨ (timers p = [1500%Z]
     ∧ isLoading (state p) = true
     ∧ github_disabled (render (state p)) = true
     ∧ step env p SubmitEmail = p
     ∧ step env p ClickGitHub = p).
Proof.
  intros p. assert (Hok : pending_ok p) by (apply run_pending; by left).
  destruct Hok as [? | [Ht Hl]]; [by left | right].
  repeat split; try done.
  - unfold step, render. rewrite Hl. cbn. by destruct (showEmailInput (state p)).
  - unfold step, render. by rewrite Hl.
Qed.

(** X21: the e-mail sign-in authenticates nothing. With the form shown and
    nothing pending, an address the browser's check refuses is not
    submitted; any address it accepts is: the page starts loading, with both
    buttons disabled and the label "Signing in...", and when the timer fires
    it stops loading and goes to [/]. The address is neither sent nor
    navigated to. *)
Theorem email_sign_in (env : Env) (p : Page) :
  showEmailInput (state p) = true →
  isLoading (state p) = false →
  timers p = [] →
  (accepts_email env (email (state p)) = false → step env p SubmitEmail = p)
  ∧ (accepts_email env (email (state p)) = true →
     email (state p) ≠ "" →
     let p1 := step env p SubmitEmail in
     let p2 := step env p1 TimerFires in
     render (state p1)
     = {| github_disabled := true; github_spinner := true;
          email_form := Some {| input_value := email (state p);
                                submit_disabled := true;
                                submit_label := "Signing in..." |} |}
     ∧ timers p1 = [1500%Z]
     ∧ pushed p2 = (pushed p ++ ["/"])%list
     ∧ isLoading (state p2) = false
     ∧ timers p2 = []
     ∧ location_href p2 = location_href p).
Proof.
  destruct p as [[loading mail shown] href routes pending]; cbn.
  intros -> -> ->. unfold step, render; cbn. split.
  - intros ->. by destruct (String.eqb mail "").
  - intros -> Hmail. destruct (String.eqb_spec mail ""); [done|]. by cbn.
Qed.

Lemma email_sign_in_witness :
  step configured_env
    (run configured_env initial [ClickContinueWithEmail; ChangeEmail "nobody"])
    SubmitEmail
  = run configured_env initial [ClickContinueWithEmail; ChangeEmail "nobody"]
  ∧ pushed
      (run configured_env initial
         [ClickContinueWithEmail; ChangeEmail "me@x.io"; SubmitEmail; TimerFires])
    = ["/"].
Proof.
  destruct (email_sign_in configured_env
              (run configured_env initial [ClickContinueWithEmail; ChangeEmail "nobody"]))
    as [Hrefused _]; [reflexivity | reflexivity | reflexivity |].
  destruct (email_sign_in configured_env
              (run configured_env initial [ClickContinueWithEmail; ChangeEmail "me@x.io"]))
    as [_ Haccepted]; [reflexivity | reflexivity | reflexivity |].
  split.
  - apply Hrefused. reflexivity.
  - destruct Haccepted as (_ & _ & Hpushed & _); [reflexivity | discriminate |].
    exact Hpushed.
Defined.

(** The check of the e-mail field on some addresses. *)
Example html_valid_email_samples :
  html_valid_email "me@x.io" = true
  ∧ html_valid_email "a.b+c@mail.example.org" = true
  ∧ html_valid_email "nobody" = false
  ∧ html_valid_email "" = false
  ∧ html_valid_email "a@b@c" = false
  ∧ html_valid_email "a@-b.c" = false
  ∧ html_valid_email "a b@c.d" = false.
Proof. vm_compute. done. Qed.

Lemma step_after_github (env : Env) (p : Page) (ev : Event) :
  isLoading (state p) = true → timers p = [] →
  isLoading (state (step env p ev)) = true
  ∧ timers (step env p ev) = []
  ∧ location_href (step env p ev) = location_href p
  ∧ pushed (step env p ev) = pushed p.
Proof.
  destruct p as [[loading mail shown] href routes pending]; cbn.
  intros -> ->. unfold step, render. by destruct ev, shown.
Qed.

(** X22: the GitHub login never stops loading. Once the button is clicked on
    a page that is not loading, the page navigates to the authorize address
    and, whatever happens on it afterwards, it stays loading with that
    address, starts no timer and calls [router.push] no more. *)
Theorem github_login_keeps_loading (env : Env) (p : Page) (events : list Event) :
  isLoading (state p) = false →
  timers p = [] →
  let p' := run env (step env p ClickGitHub) events in
  isLoading (state p') = true
  ∧ location_href p' = Some (authorize_url env)
  ∧ pushed p' = pushed p
  ∧ timers p' = [].
Proof.
  intros Hl Ht. cbn zeta.
  assert (Hstart : isLoading (state (step env p ClickGitHub)) = true
                   ∧ location_href (step env p ClickGitHub) = Some (authorize_url env)
                   ∧ pushed (step env p ClickGitHub) = pushed p
                   ∧ timers (step env p ClickGitHub) = []).
  { destruct p as [[loading mail shown] href routes pending]; cbn in *.
    subst. by unfold step, render. }
  revert Hstart. generalize (step env p ClickGitHub) as q.
  induction events as [|ev rest IH]; intros q Hq; [done|].
  destruct Hq as (H1 & H2 & H3 & H4).
  destruct (step_after_github env q ev H1 H4) as (? & ? & ? & ?).
  apply IH. repeat split; congruence.
Qed.

Lemma github_login_keeps_loading_witness :
  let p' := run bare_env (step bare_env initial ClickGitHub)
              [ClickContinueWithEmail; ChangeEmail "a@b.c"; SubmitEmail; TimerFires] in
  isLoading (state p') = true
  ∧ location_href p' = Some (authorize_url bare_env)
  ∧ pushed p' = pushed initial
  ∧ timers p' = [].
Proof.
  apply (github_login_keeps_loading bare_env initial
           [ClickContinueWithEmail; ChangeEmail "a@b.c"; SubmitEmail; TimerFires]);
    reflexivity.
Defined.

Lemma step_pushes (env : Env) (p : Page) (ev : Event) :
  Forall (fun route => route = "/") (pushed p) →
  Forall (fun route => route = "/") (pushed (step env p ev))
  ∧ (length (pushed (step env p ev)) + length (timers (step env p ev))
     ≤ length (pushed p) + length (timers p) + submissions [ev])%nat.
Proof.
  destruct p as [[loading mail shown] href routes pending]; cbn.
  intros Hall. unfold step, render.
  destruct ev, shown, loading; cbn; try (split; [done | lia]).
  all: try (destruct pending; cbn; rewrite ?length_app; cbn;
    (split; [| lia]); try done; apply Forall_app; by repeat constructor).
  destruct (String.eqb mail ""); cbn; [split; [done | lia]|].
  destruct (accepts_email env mail); cbn.
  - rewrite ?length_app; cbn. split; [done | lia].
  - split; [done | lia].
Qed.

Lemma submissions_cons (ev : Event) (events : list Event) :
  submissions (ev :: events) = submissions [ev] + submissions events.
Proof. by destruct ev. Qed.

(** X23: the page only ever goes to [/], and only through the e-mail
    sign-in: the number of [router.push] calls and pending timers together
    never exceeds the number of submissions. *)
Theorem pushes_come_from_submissions (env : Env) (events : list Event) :
  let p := run env initial events in
  Forall (fun route => route = "/") (pushed p)
  ∧ (length (pushed p) + length (timers p) ≤ submissions events)%nat.
Proof.
  cbn zeta.
  assert (Hgen : ∀ q,
    Forall (fun route => route = "/") (pushed q) →
    Forall (fun route => route = "/") (pushed (run env q events))
    ∧ (length (pushed (run env q events)) + length (timers (run env q events))
       ≤ length (pushed q) + length (timers q) + submissions events)%nat).
  { induction events as [|ev rest IH]; intros q Hq; [cbn; split; [done | lia]|].
    destruct (step_pushes env q ev Hq) as [Hall Hle].
    destruct (IH (step env q ev) Hall) as [Hall' Hle'].
    rewrite submissions_cons. split; [done|]. cbn [run fold_left] in *.
    unfold run in Hle'. lia. }
  destruct (Hgen initial) as [? ?]; [by constructor|]. split; [done|].
  cbn in *. lia.
Qed.

(** X24: the address typed is kept until it is typed over: events other than
    a change of the field - going back to the options and opening the form
    again included - leave it as it is. *)
Theorem email_kept (env : Env) (p : Page) (events : list Event) :
  forallb (fun ev => negb (is_ChangeEmail ev)) events = true →
  email (state (run env p events)) = email (state p).
Proof.
  revert p. induction events as [|ev rest IH]; intros p Hno; [done|].
  cbn [forallb] in Hno. apply andb_true_iff in Hno as [Hev Hrest].
  cbn [run fold_left]. fold (run env (step env p ev) rest).
  rewrite (IH _ Hrest).
  destruct p as [[loading mail shown] href routes pending].
  unfold step, render. destruct ev, shown, loading; cbn; try done.
  all: try (by destruct (String.eqb mail ""), (accepts_email env mail)).
  all: by destruct pending.
Qed.

Lemma email_kept_witness :
  email (state (run bare_env
                  (run bare_env initial [ClickContinueWithEmail; ChangeEmail "me@x.io"])
                  [ClickBack; ClickContinueWithEmail; SubmitEmail; TimerFires]))
  = email (state (run bare_env initial [ClickContinueWithEmail; ChangeEmail "me@x.io"])).
Proof.
  apply (email_kept bare_env
           (run bare_env initial [ClickContinueWithEmail; ChangeEmail "me@x.io"])
           [ClickBack; ClickContinueWithEmail; SubmitEmail; TimerFires]).
  reflexivity.
Defined.

End LoginPageFacts.
